(** * Viral-AI-shorts: the text post-processing and error paths of the
      generation service and of the script modals

    Shallow embedding of
      - [src/services/geminiService.ts]   (the generation orchestrator),
      - [src/components/ScriptGeneratorModal.tsx] (draft parsing, rendering,
        the finalize footer),
      - [src/components/HistoryDetailModal.tsx]   (the history detail view).

    JavaScript strings are sequences of UTF-16 code units.  They are modelled
    as [string], each [ascii] standing for one code unit in the range
    0..255 (the Latin-1 part of the BMP); every primitive below is the
    ECMAScript one restricted to that range. *)

From Stdlib Require Import Bool Arith NArith ZArith Lia List Ascii String.
Import ListNotations.

Local Open Scope string_scope.
Local Open Scope bool_scope.

Set Implicit Arguments.

(* ================================================================== *)
(** ** Code units *)

Module Char.

Definition code (c : ascii) : N := N_of_ascii c.

Definition LF : ascii := "010"%char.
Definition CR : ascii := "013"%char.
Definition DQ : ascii := "034"%char.

(** WhiteSpace and LineTerminator code units, as used by
    [String.prototype.trim] and by the regular-expression class [\s]:
    TAB, LF, VT, FF, CR, SP and NBSP (U+00A0). *)
Definition isWhiteSpace (c : ascii) : bool :=
  let n := code c in
  ((9 <=? n) && (n <=? 13) || (n =? 32) || (n =? 160))%N.

(** The four whitespace characters of the JSON grammar. *)
Definition isJsonWhiteSpace (c : ascii) : bool :=
  let n := code c in
  ((n =? 9) || (n =? 10) || (n =? 13) || (n =? 32))%N.

(** [\d] *)
Definition isDigit (c : ascii) : bool :=
  let n := code c in ((48 <=? n) && (n <=? 57))%N.

Definition isHexDigit (c : ascii) : bool :=
  let n := code c in
  ((48 <=? n) && (n <=? 57) || (65 <=? n) && (n <=? 70)
   || (97 <=? n) && (n <=? 102))%N.

(** Line terminators, which the regular-expression atom [.] refuses. *)
Definition isLineTerminator (c : ascii) : bool :=
  let n := code c in ((n =? 10) || (n =? 13))%N.

(** [String.prototype.toLowerCase] on one code unit: A-Z and the Latin-1
    capitals U+00C0..U+00DE (without the multiplication sign U+00D7) move up
    by 32. *)
Definition toLower (c : ascii) : ascii :=
  let n := code c in
  if ((65 <=? n) && (n <=? 90)
      || (192 <=? n) && (n <=? 222) && negb (n =? 215))%N
  then ascii_of_N (n + 32) else c.

Definition digitValue (c : ascii) : Z := Z.of_N (code c) - 48.

End Char.

(* ================================================================== *)
(** ** String primitives *)

Module Str.

Definition singleton (c : ascii) : string := String c EmptyString.

Definition nl : string := singleton Char.LF.
Definition dq : string := singleton Char.DQ.

Definition isEmpty (s : string) : bool :=
  match s with EmptyString => true | String _ _ => false end.

(** Truthiness of a string value: only the empty string is falsy. *)
Definition truthy (s : string) : bool := negb (isEmpty s).

Fixpoint lastChar (s : string) : option ascii :=
  match s with
  | EmptyString => None
  | String c EmptyString => Some c
  | String _ r => lastChar r
  end.

Definition firstChar (s : string) : option ascii :=
  match s with EmptyString => None | String c _ => Some c end.

Fixpoint trimStart (s : string) : string :=
  match s with
  | EmptyString => EmptyString
  | String c r => if Char.isWhiteSpace c then trimStart r else s
  end.

Fixpoint trimEnd (s : string) : string :=
  match s with
  | EmptyString => EmptyString
  | String c r =>
      let r' := trimEnd r in
      if Char.isWhiteSpace c && isEmpty r' then EmptyString else String c r'
  end.

(** [s.trim()] *)
Definition trim (s : string) : string := trimEnd (trimStart s).

(** [s.startsWith(p)] *)
Definition startsWith (s p : string) : bool := String.prefix p s.

(** [s.endsWith(p)]: [p] is a suffix of [s]. *)
Fixpoint endsWith (s p : string) : bool :=
  (s =? p) ||
  match s with
  | EmptyString => false
  | String _ r => endsWith r p
  end.

(** [s.includes(p)]: [p] occurs at some position of [s]. *)
Fixpoint includes (s p : string) : bool :=
  String.prefix p s ||
  match s with
  | EmptyString => false
  | String _ r => includes r p
  end.

(** [s.substring(a, b)] on non-negative integer arguments: both ends are
    clamped to the length, and swapped when [a > b]. *)
Definition substring (a b : nat) (s : string) : string :=
  String.substring (Nat.min a b) (Nat.max a b - Nat.min a b) s.

(** [s.substring(a)] *)
Definition substringFrom (a : nat) (s : string) : string :=
  substring a (String.length s) s.

(** Neither the first nor the last code unit is white space (the empty
    string has neither). *)
Definition noOuterWhiteSpace (s : string) : bool :=
  match firstChar s, lastChar s with
  | Some a, Some b => negb (Char.isWhiteSpace a) && negb (Char.isWhiteSpace b)
  | _, _ => true
  end.

(** [s.toLowerCase()] *)
Fixpoint toLowerCase (s : string) : string :=
  match s with
  | EmptyString => EmptyString
  | String c r => String (Char.toLower c) (toLowerCase r)
  end.

(** [s.split(sep)] for a non-empty separator.  [skip] counts the code units
    of a separator occurrence still to be passed over. *)
Fixpoint splitFrom (sep : string) (skip : nat) (s : string) : list string :=
  match s with
  | EmptyString => [EmptyString]
  | String c r =>
      match skip with
      | S k => splitFrom sep k r
      | O =>
          if String.prefix sep s
          then EmptyString :: splitFrom sep (String.length sep - 1) r
          else match splitFrom sep 0 r with
               | h :: t => String c h :: t
               | [] => [singleton c]
               end
      end
  end.

Definition split (sep : string) (s : string) : list string :=
  splitFrom sep 0 s.

(** [parts.join(sep)] *)
Definition join (sep : string) (parts : list string) : string :=
  String.concat sep parts.

End Str.

(* ================================================================== *)
(** ** Regular expressions

    A backtracking matcher for the fragment of ECMAScript regular
    expressions that the component uses: character classes, sequencing,
    greedy and lazy [*], greedy [?], capturing groups, and the assertions
    [^] and [$] (no flags, so both look at the ends of the whole input). *)

Module Regex.

Inductive regex : Type :=
| Empty
| Class (p : ascii -> bool)              (* one code unit satisfying [p] *)
| Seq (a b : regex)
| Star (greedy : bool) (a : regex)       (* [a*] or [a*?] *)
| Opt (a : regex)                        (* [a?] *)
| Group (i : nat) (a : regex)            (* the [i]-th capturing group *)
| Bol                                    (* [^] *)
| Eol.                                   (* [$] *)

(** Matcher state: the index reached, the input still ahead, and the
    captures recorded so far (most recent first). *)
Record mstate : Type := MState {
  pos : nat;
  ahead : string;
  caps : list (nat * string)
}.

Definition orElse {A} (x y : option A) : option A :=
  match x with Some _ => x | None => y end.

(** [run r st k] matches [r] at [st] and hands every way of doing so, in
    priority order, to the continuation [k], stopping at the first one
    that [k] accepts.  An iteration of [*] that consumes nothing is
    refused, as in the RepeatMatcher of the language definition; an
    iteration therefore shortens [ahead], and the iteration budget
    [S (length ahead)] below is never used up. *)
Fixpoint run (r : regex) (st : mstate) (k : mstate -> option mstate)
  : option mstate :=
  match r with
  | Empty => k st
  | Class p =>
      match ahead st with
      | String c rest =>
          if p c then k (MState (S (pos st)) rest (caps st)) else None
      | EmptyString => None
      end
  | Seq a b => run a st (fun st' => run b st' k)
  | Star greedy a =>
      (fix loop (budget : nat) (st : mstate) {struct budget} :=
         match budget with
         | O => k st
         | S budget' =>
             let again :=
               run a st (fun st' =>
                 if Nat.eqb (pos st') (pos st) then None else loop budget' st') in
             if greedy then orElse again (k st) else orElse (k st) again
         end) (S (String.length (ahead st))) st
  | Opt a => orElse (run a st k) (k st)
  | Group i a =>
      run a st (fun st' =>
        k (MState (pos st') (ahead st')
             ((i, String.substring 0 (pos st' - pos st) (ahead st))
                :: caps st')))
  | Bol => if Nat.eqb (pos st) 0 then k st else None
  | Eol => if Str.isEmpty (ahead st) then k st else None
  end.

(** Trying the start positions from left to right, as [RegExp.prototype.exec]
    does for a pattern without the sticky flag. *)
Fixpoint execFrom (r : regex) (i : nat) (s : string) : option mstate :=
  orElse (run r (MState i s []) Some)
         match s with
         | EmptyString => None
         | String _ rest => execFrom r (S i) rest
         end.

(** A match result gives, for each group index, the captured text or
    [None] for [undefined]. *)
Definition MatchResult : Type := nat -> option string.

Fixpoint lookup (i : nat) (cs : list (nat * string)) : option string :=
  match cs with
  | [] => None
  | (j, v) :: rest => if Nat.eqb i j then Some v else lookup i rest
  end.

(** [s.match(r)] for a pattern without the global flag; [None] is [null]. *)
Definition matchRegex (r : regex) (s : string) : option MatchResult :=
  match execFrom r 0 s with
  | Some st => Some (fun i => lookup i (caps st))
  | None => None
  end.

(** Pattern constructors. *)
Definition lit (c : ascii) : regex := Class (Ascii.eqb c).
Definition digit : regex := Class Char.isDigit.
Definition space : regex := Class Char.isWhiteSpace.
Definition dot : regex := Class (fun c => negb (Char.isLineTerminator c)).
Definition plus (a : regex) : regex := Seq a (Star true a).

Fixpoint seqs (rs : list regex) : regex :=
  match rs with
  | [] => Empty
  | [r] => r
  | r :: rest => Seq r (seqs rest)
  end.

End Regex.

(* ================================================================== *)
(** ** Exceptions and results *)

(** The exception values that occur: [new Error(message)], which is what
    the service throws itself; the [SyntaxError] of [JSON.parse], whose
    message depends on the engine and is left out; and [TypeError]. *)
Inductive JsError : Type :=
| Error (message : string)
| SyntaxError
| TypeError.

(** How an evaluation ends: normally with a value, or abruptly with a thrown
    exception (for an [async] function: a fulfilled or a rejected promise). *)
Inductive outcome (A : Type) : Type :=
| Returned (a : A)
| Thrown (e : JsError).

Arguments Returned {A} a.
Arguments Thrown {A} e.

(* ================================================================== *)
(** ** JSON.parse

    A recursive-descent reader for the JSON grammar.  String and number
    literals are kept as their source lexemes: nothing here depends on
    their decoded values. *)

Module Json.

#[warnings="-register-all"]
Inductive value : Type :=
| Null
| Bool (b : bool)
| Number (lexeme : string)
| Str (lexeme : string)
| Array (items : list value)
| Object (members : list (string * value)).

(** Result of reading a prefix of the input. *)
Inductive presult (A : Type) : Type :=
| OutOfFuel
| Bad
| Good (a : A) (rest : string).

Arguments OutOfFuel {A}.
Arguments Bad {A}.
Arguments Good {A} a rest.

Fixpoint skipWs (s : string) : string :=
  match s with
  | String c r => if Char.isJsonWhiteSpace c then skipWs r else s
  | EmptyString => s
  end.

(** The input after the code unit [c], when the input starts with it. *)
Definition expect (c : ascii) (s : string) : option string :=
  match s with
  | String a r => if Ascii.eqb a c then Some r else None
  | EmptyString => None
  end.

Fixpoint takeDigits (s : string) : string * string :=
  match s with
  | String c r =>
      if Char.isDigit c
      then let (ds, rest) := takeDigits r in (String c ds, rest)
      else (EmptyString, s)
  | EmptyString => (EmptyString, s)
  end.

Definition isSimpleEscape (c : ascii) : bool :=
  Ascii.eqb c Char.DQ || Ascii.eqb c "\" || Ascii.eqb c "/"
  || Ascii.eqb c "b" || Ascii.eqb c "f" || Ascii.eqb c "n"
  || Ascii.eqb c "r" || Ascii.eqb c "t".

Definition consLexeme (prefix : string) (r : option (string * string))
  : option (string * string) :=
  match r with
  | Some (body, rest) => Some (prefix ++ body, rest)
  | None => None
  end.

(** The characters of a string literal after its opening quote, up to and
    without the closing quote. *)
Fixpoint stringBody (s : string) : option (string * string) :=
  match s with
  | EmptyString => None
  | String c r =>
      if Ascii.eqb c Char.DQ then Some (EmptyString, r)
      else if Ascii.eqb c "\" then
        match r with
        | String e r1 =>
            if isSimpleEscape e
            then consLexeme (String c (String e EmptyString)) (stringBody r1)
            else if Ascii.eqb e "u" then
              match r1 with
              | String h1 (String h2 (String h3 (String h4 r2))) =>
                  if Char.isHexDigit h1 && Char.isHexDigit h2
                     && Char.isHexDigit h3 && Char.isHexDigit h4
                  then consLexeme
                         (String c (String e (String h1 (String h2
                            (String h3 (String h4 EmptyString))))))
                         (stringBody r2)
                  else None
              | _ => None
              end
            else None
        | EmptyString => None
        end
      else if (Char.code c <? 32)%N then None
      else consLexeme (String c EmptyString) (stringBody r)
  end.

(** A number literal: an optional minus sign; then a single zero, or a
    non-zero digit followed by digits; then optionally a point and at least
    one digit; then optionally [e] or [E], an optional sign and at least one
    digit. *)
Definition intPart (s : string) : option (string * string) :=
  match s with
  | String c r =>
      if Ascii.eqb c "0" then Some (String c EmptyString, r)
      else if Char.isDigit c
      then let (ds, rest) := takeDigits r in Some (String c ds, rest)
      else None
  | EmptyString => None
  end.

Definition fracPart (s : string) : option (string * string) :=
  match expect "." s with
  | Some r =>
      let (ds, rest) := takeDigits r in
      if Str.isEmpty ds then None else Some (String "." ds, rest)
  | None => Some (EmptyString, s)
  end.

Definition expDigits (mark : string) (s : string) : option (string * string) :=
  let (ds, rest) := takeDigits s in
  if Str.isEmpty ds then None else Some (mark ++ ds, rest).

Definition expPart (s : string) : option (string * string) :=
  match s with
  | String c r =>
      if Ascii.eqb c "e" || Ascii.eqb c "E" then
        match r with
        | String sg r1 =>
            if Ascii.eqb sg "+" || Ascii.eqb sg "-"
            then expDigits (String c (String sg EmptyString)) r1
            else expDigits (String c EmptyString) r
        | EmptyString => None
        end
      else Some (EmptyString, s)
  | EmptyString => Some (EmptyString, s)
  end.

Definition number (s : string) : option (string * string) :=
  let (sign, s1) :=
    match expect "-" s with
    | Some r => ("-", r)
    | None => (EmptyString, s)
    end in
  match intPart s1 with
  | None => None
  | Some (i, s2) =>
      match fracPart s2 with
      | None => None
      | Some (f, s3) =>
          match expPart s3 with
          | None => None
          | Some (e, s4) => Some (sign ++ i ++ f ++ e, s4)
          end
      end
  end.

Definition keyword (kw : string) (v : value) (s : string) : presult value :=
  if String.prefix kw s
  then Good v (String.substring (String.length kw)
                 (String.length s - String.length kw) s)
  else Bad.

Fixpoint parseValue (fuel : nat) (s : string) {struct fuel} : presult value :=
  match fuel with
  | O => OutOfFuel
  | S fuel' =>
      match skipWs s with
      | EmptyString => Bad
      | String c r =>
          if Ascii.eqb c "[" then
            match expect "]" (skipWs r) with
            | Some r' => Good (Array []) r'
            | None =>
                match parseElements fuel' r with
                | Good vs rest => Good (Array vs) rest
                | Bad => Bad
                | OutOfFuel => OutOfFuel
                end
            end
          else if Ascii.eqb c "{" then
            match expect "}" (skipWs r) with
            | Some r' => Good (Object []) r'
            | None =>
                match parseMembers fuel' r with
                | Good ms rest => Good (Object ms) rest
                | Bad => Bad
                | OutOfFuel => OutOfFuel
                end
            end
          else if Ascii.eqb c Char.DQ then
            match stringBody r with
            | Some (body, rest) => Good (Str body) rest
            | None => Bad
            end
          else if Ascii.eqb c "t" then keyword "true" (Bool true) (String c r)
          else if Ascii.eqb c "f" then keyword "false" (Bool false) (String c r)
          else if Ascii.eqb c "n" then keyword "null" Null (String c r)
          else
            match number (String c r) with
            | Some (lexeme, rest) => Good (Number lexeme) rest
            | None => Bad
            end
      end
  end

with parseElements (fuel : nat) (s : string) {struct fuel}
  : presult (list value) :=
  match fuel with
  | O => OutOfFuel
  | S fuel' =>
      match parseValue fuel' s with
      | Good v rest =>
          match expect "]" (skipWs rest) with
          | Some rest' => Good [v] rest'
          | None =>
              match expect "," (skipWs rest) with
              | Some rest' =>
                  match parseElements fuel' rest' with
                  | Good vs rest'' => Good (v :: vs) rest''
                  | Bad => Bad
                  | OutOfFuel => OutOfFuel
                  end
              | None => Bad
              end
          end
      | Bad => Bad
      | OutOfFuel => OutOfFuel
      end
  end

with parseMembers (fuel : nat) (s : string) {struct fuel}
  : presult (list (string * value)) :=
  match fuel with
  | O => OutOfFuel
  | S fuel' =>
      match expect Char.DQ (skipWs s) with
      | Some r =>
          match stringBody r with
          | Some (key, afterKey) =>
              match expect ":" (skipWs afterKey) with
              | Some afterColon =>
                  match parseValue fuel' afterColon with
                  | Good v rest =>
                      match expect "}" (skipWs rest) with
                      | Some rest' => Good [(key, v)] rest'
                      | None =>
                          match expect "," (skipWs rest) with
                          | Some rest' =>
                              match parseMembers fuel' rest' with
                              | Good ms rest'' =>
                                  Good ((key, v) :: ms) rest''
                              | Bad => Bad
                              | OutOfFuel => OutOfFuel
                              end
                          | None => Bad
                          end
                      end
                  | Bad => Bad
                  | OutOfFuel => OutOfFuel
                  end
              | None => Bad
              end
          | None => Bad
          end
      | None => Bad
      end
  end.

(** Enough fuel for an input: two units per code unit and one more. *)
Definition fuelFor (s : string) : nat := 2 * String.length s + 1.

(** [JSON.parse(text)]: one value, surrounded by optional whitespace and
    followed by nothing else; anything else throws a [SyntaxError]. *)
Definition parse (text : string) : outcome value :=
  match parseValue (fuelFor text) text with
  | Good v rest =>
      if Str.isEmpty (skipWs rest) then Returned v else Thrown SyntaxError
  | Bad => Thrown SyntaxError
  | OutOfFuel => Thrown SyntaxError
  end.

End Json.

(* ================================================================== *)
(** ** Numbers and arrays *)

Module Num.

(** The numbers that [parseInt] can return: [NaN] or an integer.  (A
    double is exact on integers below 2^53; decimal strings longer than that
    are outside what the component deals with.) *)
Inductive number : Type :=
| NaN
| Int (z : Z).

Fixpoint digitsValue (acc : Z) (ds : string) : Z :=
  match ds with
  | EmptyString => acc
  | String c r => digitsValue (10 * acc + Char.digitValue c) r
  end.

(** [parseInt(s, 10)]: leading white space is skipped, then an optional
    sign, then the longest run of decimal digits; no digit gives [NaN]. *)
Definition parseInt10 (s : string) : number :=
  let s1 := Str.trimStart s in
  let (negative, s2) :=
    match Json.expect "-" s1, Json.expect "+" s1 with
    | Some r, _ => (true, r)
    | None, Some r => (false, r)
    | None, None => (false, s1)
    end in
  let (ds, _) := Json.takeDigits s2 in
  if Str.isEmpty ds then NaN
  else Int (if negative then - digitsValue 0 ds else digitsValue 0 ds).

(** The values that an [<input type="number">] can report as its [value]:
    the empty string, or a valid floating-point number (an optional minus
    sign; digits, or digits, a point and digits, or a point and digits; an
    optional exponent).  The attributes [min] and [max] do not narrow this
    set: they only mark the control as invalid. *)
Definition mantissa (s : string) : option string :=
  let (ds, rest) := Json.takeDigits s in
  match Json.expect "." rest with
  | Some r =>
      let (fs, rest') := Json.takeDigits r in
      if Str.isEmpty fs then None else Some rest'
  | None => if Str.isEmpty ds then None else Some rest
  end.

Definition isValidFloat (s : string) : bool :=
  let s1 := match Json.expect "-" s with Some r => r | None => s end in
  match mantissa s1 with
  | None => false
  | Some rest =>
      match Json.expPart rest with
      | Some (_, EmptyString) => true
      | _ => false
      end
  end.

Definition isNumberInputValue (s : string) : bool :=
  Str.isEmpty s || isValidFloat s.

End Num.

Module Arr.

Section Lists.

Variable A : Type.

(** A relative index of [slice], resolved against the length. *)
Definition sliceIndex (len : nat) (i : Z) : nat :=
  if (i <? 0)%Z then Z.to_nat (Z.max (Z.of_nat len + i) 0)
  else Nat.min (Z.to_nat i) len.

(** [xs.slice(a, b)] *)
Definition slice (a b : Z) (xs : list A) : list A :=
  let from := sliceIndex (List.length xs) a in
  let to := sliceIndex (List.length xs) b in
  firstn (to - from) (skipn from xs).

(** [xs.slice(a)] *)
Definition sliceFrom (a : Z) (xs : list A) : list A :=
  slice a (Z.of_nat (List.length xs)) xs.

(** [xs.indexOf(x)]: the first index holding [x], or [-1]. *)
Fixpoint indexOf (eqb : A -> A -> bool) (xs : list A) (x : A) : Z :=
  match xs with
  | [] => (-1)%Z
  | y :: rest =>
      if eqb y x then 0%Z
      else let i := indexOf eqb rest x in
           if (i <? 0)%Z then (-1)%Z else (i + 1)%Z
  end.

Fixpoint somes (xs : list (option A)) : list A :=
  match xs with
  | [] => []
  | Some x :: rest => x :: somes rest
  | None :: rest => somes rest
  end.

End Lists.

(** [xs[i] === v] for strings: [false] when the index is out of range. *)
Definition atIs (xs : list string) (i : Z) (v : string) : bool :=
  if (i <? 0)%Z then false
  else match nth_error xs (Z.to_nat i) with
       | Some x => String.eqb x v
       | None => false
       end.

End Arr.

(* ================================================================== *)
(** ** What the sources import from files outside this development

    [../types] declares the enumerations [Genre] and [Duration];
    [../constants] declares the prompt texts.  Neither file is part of the
    sources at hand, so their contents are parameters: an enumeration member
    is known only through the text that a template literal makes of it. *)

Class Imports : Type := {
  Genre : Type;
  Duration : Type;
  genreText : Genre -> string;
  durationText : Duration -> string;
  (** the member [Duration.Shorts30] *)
  Shorts30 : Duration;
  SYSTEM_PROMPT : string;
  TRENDING_TOPICS_PROMPT : string;
  SEO_SYSTEM_PROMPT : string;
  (** [getFinalizeScriptJsonPrompt(sceneDuration, numberOfScenes)]; the
      second argument is an integer or [undefined]. *)
  getFinalizeScriptJsonPrompt : string -> option Z -> string
}.

(* ================================================================== *)
(** ** src/services/geminiService.ts *)

Module Service.

(** The argument of [ai.models.generateContent]. *)
Record Request : Type := {
  model : string;
  contents : string;
  systemInstruction : string;
  responseMimeType : option string;
  (** the [required] list of the response schema, when one is given *)
  responseSchemaRequired : option (list string)
}.

(** What a run leaves behind: the requests sent to the endpoint, in order,
    and the lines written with [console.error]. *)
Record World : Type := {
  network : list Request;
  console : list (string * JsError)
}.

Definition quiet : World := {| network := []; console := [] |}.

(** An asynchronous computation: it ends with a value or a thrown
    exception, and extends the trace. *)
Definition Async (A : Type) : Type := World -> outcome A * World.

Definition ret {A} (a : A) : Async A := fun w => (Returned a, w).

Definition throw {A} (e : JsError) : Async A := fun w => (Thrown e, w).

Definition bind {A B} (c : Async A) (k : A -> Async B) : Async B :=
  fun w =>
    match c w with
    | (Returned a, w') => k a w'
    | (Thrown e, w') => (Thrown e, w')
    end.

(** [try { body } catch (error) { handler }] *)
Definition tryCatch {A} (body : Async A) (handler : JsError -> Async A)
  : Async A :=
  fun w =>
    match body w with
    | (Returned a, w') => (Returned a, w')
    | (Thrown e, w') => handler e w'
    end.

Definition lift {A} (o : outcome A) : Async A := fun w => (o, w).

Definition console_error (label : string) (e : JsError) : Async unit :=
  fun w =>
    (Returned tt,
     {| network := network w; console := console w ++ [(label, e)] |}).

Declare Scope async_scope.
Delimit Scope async_scope with async.
Notation "x <- c ;; k" := (bind c (fun x => k))
  (at level 61, c at next level, right associativity) : async_scope.
Notation "c ;;; k" := (bind c (fun _ => k))
  (at level 61, right associativity) : async_scope.
Local Open Scope async_scope.

(** The surroundings of a call: [process.env.API_KEY] ([None] when the
    variable is not defined) and the remote endpoint, which answers a
    request with the text of its response or fails. *)
Record Runtime : Type := {
  API_KEY : option string;
  endpoint : Request -> outcome string
}.

Record GoogleGenAI : Type := { apiKey : string }.

(** [ai.models.generateContent(request)], then reading [response.text],
    which the sources take to be a string. *)
Definition generateContent (rt : Runtime) (ai : GoogleGenAI) (req : Request)
  : Async string :=
  fun w =>
    (endpoint rt req,
     {| network := network w ++ [req]; console := console w |}).

Definition plainRequest (prompt system : string) : Request :=
  {| model := "gemini-2.5-pro";
     contents := prompt;
     systemInstruction := system;
     responseMimeType := None;
     responseSchemaRequired := None |}.

Section Operations.

Context {imports : Imports}.
Variable rt : Runtime.

Record Idea : Type := {
  title : string;
  concept : string;
  storyArc : string;
  genre : Genre;
  duration : Duration;
  visualsAndAudio : string
}.

(** The test [process.env.API_KEY] of line 7: the variable is defined and
    not empty. *)
Definition hasCredential : bool :=
  match API_KEY rt with
  | Some key => Str.truthy key
  | None => false
  end.

(** Lines 6-11. *)
Definition getGenAIClient : outcome GoogleGenAI :=
  match API_KEY rt with
  | Some key =>
      if negb (Str.truthy key)
      then Thrown (Error "API_KEY environment variable is not set.")
      else Returned {| apiKey := key |}
  | None => Thrown (Error "API_KEY environment variable is not set.")
  end.

(** Lines 14-32. *)
Definition ideasRequest (g : Genre) (d : Duration) : Request :=
  let userPrompt :=
    "Generate 10 " ++ genreText g ++ " ideas for a "
      ++ durationText d ++ " video." in
  plainRequest userPrompt SYSTEM_PROMPT.

Definition generateShortsIdeas (g : Genre) (d : Duration) : Async string :=
  ai <- lift getGenAIClient ;;
  tryCatch
    (response <- generateContent rt ai (ideasRequest g d) ;;
     ret response)
    (fun error =>
       console_error "Error calling Gemini API:" error ;;;
       throw (Error "Failed to generate ideas from Gemini API.")).

(** Lines 119-127: the treatment of the response text. *)
Definition stripJsonFences (responseText : string) : string :=
  let jsonText := Str.trim responseText in
  let jsonText :=
    if Str.startsWith jsonText "```json"
    then Str.substringFrom 7 jsonText else jsonText in
  let jsonText :=
    if Str.endsWith jsonText "```"
    then Str.substring 0 (String.length jsonText - 3) jsonText
    else jsonText in
  Str.trim jsonText.

(** Lines 101-133. *)
Definition finalizeRequest (finalScript sceneDuration : string)
    (numberOfScenes : option Z) : Request :=
  let userPrompt :=
    "Please convert the following script into the specified JSON format."
      ++ Str.nl ++ "    " ++ Str.nl ++ "    **Script:**" ++ Str.nl
      ++ "    " ++ finalScript ++ Str.nl ++ "    " in
  plainRequest userPrompt
    (getFinalizeScriptJsonPrompt sceneDuration numberOfScenes).

Definition finalizeScriptAsJson (finalScript sceneDuration : string)
    (numberOfScenes : option Z) : Async string :=
  ai <- lift getGenAIClient ;;
  tryCatch
    (response <-
       generateContent rt ai
         (finalizeRequest finalScript sceneDuration numberOfScenes) ;;
     ret (stripJsonFences response))
    (fun error =>
       console_error "Error calling Gemini API for script finalization:" error ;;;
       throw (Error "Failed to finalize script as JSON from Gemini API.")).

(** Lines 192-211. *)
Definition trendingRequest (genres : list Genre) : Request :=
  let userPrompt :=
    "Analyze trends for: " ++ Str.join ", " (map genreText genres) in
  plainRequest userPrompt TRENDING_TOPICS_PROMPT.

Definition getTrendingTopics (genres : list Genre) : Async (list string) :=
  ai <- lift getGenAIClient ;;
  tryCatch
    (response <- generateContent rt ai (trendingRequest genres) ;;
     let topicsText := Str.trim response in
     if negb (Str.truthy topicsText) then ret []
     else ret (map (fun topic => Str.toLowerCase (Str.trim topic))
                 (Str.split "," topicsText)))
    (fun error =>
       console_error "Error calling Gemini API for trending topics:" error ;;;
       throw (Error "Failed to get trending topics from Gemini API.")).

Definition seoRequest (finalJsonScript : string) (idea : Idea) : Request :=
  let userPrompt :=
    "Generate the SEO package for the following video idea and script."
      ++ Str.nl ++ Str.nl
      ++ "**Idea Title:** " ++ title idea ++ Str.nl
      ++ "**Concept:** " ++ concept idea ++ Str.nl
      ++ "**Genre:** " ++ genreText (genre idea) ++ Str.nl
      ++ Str.nl
      ++ "**Final Production Script (JSON):**" ++ Str.nl
      ++ finalJsonScript ++ Str.nl in
  {| model := "gemini-2.5-pro";
     contents := userPrompt;
     systemInstruction := SEO_SYSTEM_PROMPT;
     responseMimeType := Some "application/json";
     responseSchemaRequired := Some ["title"; "description"; "tags"] |}.

(** Lines 213-254.  The result is the parsed value itself: the cast
    [as SeoContent] checks nothing at run time. *)
Definition generateSeoContent (finalJsonScript : string) (idea : Idea)
  : Async Json.value :=
  ai <- lift getGenAIClient ;;
  tryCatch
    (response <- generateContent rt ai (seoRequest finalJsonScript idea) ;;
     let jsonText := Str.trim response in
     lift (Json.parse jsonText))
    (fun error =>
       console_error
         "Error calling Gemini API for SEO content generation:" error ;;;
       throw (Error "Failed to generate SEO content from Gemini API.")).

End Operations.

End Service.

(* ================================================================== *)
(** ** src/components/ScriptGeneratorModal.tsx *)

Module ScriptGeneratorModal.

Import Regex.

(** What a render function returns, as far as its text content goes:
    a [<pre>] holding a text; the script table, with the texts of its head
    cells and, per body row and cell, the paragraphs of that cell; the
    list of scenes of the final JSON. *)
Inductive View : Type :=
| Pre (text : string)
| Table (header : list string) (rows : list (list (list string)))
| Scenes (scenes : list Json.value).

(** Lines 40-47: the draft is cut at the lines that hold three dashes. *)
Definition separator : string := Str.nl ++ "---" ++ Str.nl.

Definition splitDraft (script : option string)
  : option string * option string :=
  match script with
  | None => (None, None)
  | Some text =>
      if negb (Str.truthy text) then (None, None)
      else
        let parts := Str.split separator text in
        let first := nth 0 parts EmptyString in
        if (1 <? List.length parts)%nat
           && Str.includes (Str.toLowerCase first) "suggested narration styles"
        then (Some first,
              Some (Str.trim (Str.join separator (Arr.sliceFrom 1 parts))))
        else (None, Some text)
  end.

Definition narrationSuggestions (script : option string) : option string :=
  fst (splitDraft script).

Definition scriptTable (script : option string) : option string :=
  snd (splitDraft script).

(** Line 52, the pattern of a suggestion line; token by token:
    ^  \d+  \.  \s*  \*  \*   *)
Definition suggestionLinePattern : regex :=
  seqs [Bol; plus digit; lit "."; Star true space; lit "*"; lit "*"].

(** Line 55, the pattern that takes a suggestion line apart; token by
    token, with group 1 and group 2 lazy and group 3 greedy:
    ^  \d+  \.  \s*  \*  \*  ( .*? )  :  \*  \*  ( .*? )
    (?:  \s*  \*  ( .* )  \*  )?  $   *)
Definition suggestionPattern : regex :=
  seqs [Bol; plus digit; lit "."; Star true space; lit "*"; lit "*";
        Group 1 (Star false dot); lit ":"; lit "*"; lit "*";
        Group 2 (Star false dot);
        Opt (seqs [Star true space; lit "*"; Group 3 (Star true dot);
                   lit "*"]);
        Eol].

Record Suggestion : Type := {
  name : string;
  description : string;
  justification : string
}.

(** [group?.trim() || fallback] *)
Definition trimmedOr (group : option string) (fallback : string) : string :=
  match group with
  | None => fallback
  | Some text =>
      let t := Str.trim text in if Str.truthy t then t else fallback
  end.

Definition isSome {A} (o : option A) : bool :=
  match o with Some _ => true | None => false end.

(** Lines 49-64. *)
Definition parsedSuggestions (suggestions : option string) : list Suggestion :=
  match suggestions with
  | None => []
  | Some text =>
      if negb (Str.truthy text) then []
      else
        let suggestionLines :=
          filter (fun line => isSome (matchRegex suggestionLinePattern line))
                 (Str.split Str.nl (Str.trim text)) in
        Arr.somes
          (map (fun line =>
                  match matchRegex suggestionPattern line with
                  | Some m =>
                      Some {| name := trimmedOr (m 1) "Unnamed Style";
                              description := trimmedOr (m 2) EmptyString;
                              justification := trimmedOr (m 3) EmptyString |}
                  | None => None
                  end)
               suggestionLines)
  end.

(** Lines 102-109: the cells of one line of the table body. *)
Definition rowCells (line : string) : list string :=
  let cells := map Str.trim (Str.split "|" line) in
  if Arr.atIs cells 0 EmptyString
     && Arr.atIs cells (Z.of_nat (List.length cells) - 1) EmptyString
  then Arr.slice 1 (-1) cells
  else cells.

Definition isHeaderLine (line : string) : bool :=
  Str.includes line "|" && Str.includes (Str.toLowerCase line) "timestamp".

(** Lines 93-137.  Nothing in the guarded block can throw on a string
    argument; the handler is kept as the source has it. *)
Definition renderScriptTable (markdown : string) : outcome View :=
  let body : outcome View :=
    let lines := Str.split Str.nl (Str.trim markdown) in
    match find isHeaderLine lines with
    | None => Returned (Pre markdown)
    | Some headerLine =>
        let headerIndex := Arr.indexOf String.eqb lines headerLine in
        let header :=
          filter Str.truthy (map Str.trim (Str.split "|" headerLine)) in
        let dataRows := Arr.sliceFrom (headerIndex + 2) lines in
        let rows :=
          filter (fun row => (1 <? List.length row)%nat)
                 (map rowCells dataRows) in
        Returned (Table header (map (map (Str.split Str.nl)) rows))
    end in
  match body with
  | Returned view => Returned view
  | Thrown _ => Returned (Pre markdown)
  end.

Definition isNull (v : Json.value) : bool :=
  match v with Json.Null => true | _ => false end.

(** Lines 139-167.  Inside the guarded block, [JSON.parse] throws on a
    text that is not JSON, and reading [scene.scene] throws when an element
    of the array is [null]; both end in the verbatim view, as does a value
    that is not an array. *)
Definition renderFinalJson (jsonString : string) : outcome View :=
  let body : outcome (option View) :=
    match Json.parse jsonString with
    | Returned (Json.Array scenes) =>
        if existsb isNull scenes then Thrown TypeError
        else Returned (Some (Scenes scenes))
    | Returned _ => Returned None
    | Thrown e => Thrown e
    end in
  match body with
  | Returned (Some view) => Returned view
  | Returned None => Returned (Pre jsonString)
  | Thrown _ => Returned (Pre jsonString)
  end.

Section Component.

Context {imports : Imports}.

(** The properties that the handlers and the conditional parts of the
    markup read. *)
Record Props : Type := {
  idea : option Service.Idea;
  isLoading : bool;
  script : option string;
  finalJsonScript : option string
}.

(** The state hooks of lines 30-37 ([copiedStatus], which only colours the
    copy buttons, is left out). *)
Record State : Type := {
  duration : Duration;
  suggestion : string;
  noNarration : bool;
  jsonSceneDuration : string;
  selectedNarrationStyle : option string;
  numberOfScenes : string;
  language : string
}.

Definition initialState (p : Props) : State :=
  {| duration := match idea p with
                 | Some i => Service.duration i
                 | None => Shorts30
                 end;
     suggestion := EmptyString;
     noNarration := false;
     jsonSceneDuration := "15";
     selectedNarrationStyle := None;
     numberOfScenes := EmptyString;
     language := "English" |}.

Definition truthyText (o : option string) : bool :=
  match o with Some s => Str.truthy s | None => false end.

(** Which parts of the markup are present. *)
Definition showsStartPanel (p : Props) : bool :=
  negb (truthyText (script p)) && negb (isLoading p).

Definition showsRevisionPanel (p : Props) : bool :=
  truthyText (script p) && negb (truthyText (finalJsonScript p)).

Definition showsFooter (p : Props) : bool :=
  truthyText (script p) && negb (truthyText (finalJsonScript p)).

(** The calls made on the two callback properties. *)
Inductive Call : Type :=
| OnGenerate (sceneDuration : Duration) (noNarration : bool)
    (language : string) (suggestion : option string)
    (selectedNarrationStyle : option string)
| OnFinalize (sceneDuration : string) (numberOfScenes : option Num.number).

(** What the user can do to the controls. *)
Inductive Event : Type :=
| ChangeLanguage (value : string)
| ChangeDuration (value : Duration)
| ChangeNoNarration (checked : bool)
| ChangeSuggestion (value : string)
| ChooseStyle (name : string)
| ChangeSceneCount (value : string)
| ChangeSceneDuration (value : string)
| ClickGenerate
| ClickRegenerate
| ClickFinalize.

Definition setJsonSceneDuration (v : string) (s : State) : State :=
  {| duration := duration s; suggestion := suggestion s;
     noNarration := noNarration s; jsonSceneDuration := v;
     selectedNarrationStyle := selectedNarrationStyle s;
     numberOfScenes := numberOfScenes s; language := language s |}.

Definition setNumberOfScenes (v : string) (s : State) : State :=
  {| duration := duration s; suggestion := suggestion s;
     noNarration := noNarration s; jsonSceneDuration := jsonSceneDuration s;
     selectedNarrationStyle := selectedNarrationStyle s;
     numberOfScenes := v; language := language s |}.

Definition setSuggestion (v : string) (s : State) : State :=
  {| duration := duration s; suggestion := v;
     noNarration := noNarration s; jsonSceneDuration := jsonSceneDuration s;
     selectedNarrationStyle := selectedNarrationStyle s;
     numberOfScenes := numberOfScenes s; language := language s |}.

Definition setNoNarration (v : bool) (s : State) : State :=
  {| duration := duration s; suggestion := suggestion s;
     noNarration := v; jsonSceneDuration := jsonSceneDuration s;
     selectedNarrationStyle := selectedNarrationStyle s;
     numberOfScenes := numberOfScenes s; language := language s |}.

Definition setLanguage (v : string) (s : State) : State :=
  {| duration := duration s; suggestion := suggestion s;
     noNarration := noNarration s; jsonSceneDuration := jsonSceneDuration s;
     selectedNarrationStyle := selectedNarrationStyle s;
     numberOfScenes := numberOfScenes s; language := v |}.

Definition setDuration (v : Duration) (s : State) : State :=
  {| duration := v; suggestion := suggestion s;
     noNarration := noNarration s; jsonSceneDuration := jsonSceneDuration s;
     selectedNarrationStyle := selectedNarrationStyle s;
     numberOfScenes := numberOfScenes s; language := language s |}.

Definition setSelectedNarrationStyle (v : option string) (s : State) : State :=
  {| duration := duration s; suggestion := suggestion s;
     noNarration := noNarration s; jsonSceneDuration := jsonSceneDuration s;
     selectedNarrationStyle := v;
     numberOfScenes := numberOfScenes s; language := language s |}.

(** Whether the control of an event is in the markup and enabled, and
    whether the value is one that the control can report. *)
Definition enabled (p : Props) (s : State) (ev : Event) : bool :=
  isSome (idea p) &&
  match ev with
  | ChangeLanguage _ => showsStartPanel p || showsRevisionPanel p
  | ChangeDuration _ => showsStartPanel p
  | ChangeNoNarration _ => showsStartPanel p || showsRevisionPanel p
  | ChangeSuggestion _ => showsRevisionPanel p
  | ChooseStyle n =>
      truthyText (script p)
      && existsb (fun sg => String.eqb (name sg) n)
           (parsedSuggestions (narrationSuggestions (script p)))
  | ChangeSceneCount v => showsFooter p && Num.isNumberInputValue v
  | ChangeSceneDuration v => showsFooter p && Num.isNumberInputValue v
  | ClickGenerate => showsStartPanel p
  | ClickRegenerate =>
      showsRevisionPanel p && negb (isLoading p || negb (Str.truthy (suggestion s)))
  | ClickFinalize => showsFooter p && negb (isLoading p)
  end.

(** The handlers, as written in the markup. *)
Definition handle (s : State) (ev : Event) : State * list Call :=
  match ev with
  | ChangeLanguage v => (setLanguage v s, [])
  | ChangeDuration v => (setDuration v s, [])
  | ChangeNoNarration b => (setNoNarration b s, [])
  | ChangeSuggestion v => (setSuggestion v s, [])
  | ChooseStyle n => (setSelectedNarrationStyle (Some n) s, [])
  | ChangeSceneCount v => (setNumberOfScenes v s, [])
  | ChangeSceneDuration v => (setJsonSceneDuration v s, [])
  | ClickGenerate =>
      (s, [OnGenerate (duration s) (noNarration s) (language s) None None])
  | ClickRegenerate =>
      (s, [OnGenerate (duration s) (noNarration s) (language s)
             (Some (suggestion s)) (selectedNarrationStyle s)])
  | ClickFinalize =>
      (s, [OnFinalize (jsonSceneDuration s)
             (if Str.truthy (numberOfScenes s)
              then Some (Num.parseInt10 (numberOfScenes s))
              else None)])
  end.

(** The two effects of lines 66-76, each as the update it makes when it
    runs. *)
Definition effectDefaultStyle (p : Props) (s : State) : State :=
  match parsedSuggestions (narrationSuggestions (script p)) with
  | first :: _ =>
      if negb (truthyText (selectedNarrationStyle s))
      then setSelectedNarrationStyle (Some (name first)) s else s
  | [] => s
  end.

Definition effectResetStyle (p : Props) (s : State) : State :=
  if truthyText (script p) then setSelectedNarrationStyle None s else s.

(** States that the component can be in while it is shown with
    properties [p]: it starts in [initialState p]; an enabled event runs its
    handler; an effect may run. (When React runs the effects is not
    modelled: any order is allowed, which only adds states.)  The
    properties are held fixed: a draft that changes while the modal is open
    is not followed, so these are some of the states of the component, not
    all of them. *)
Inductive reachable (p : Props) : State -> Prop :=
| reach_init : reachable p (initialState p)
| reach_event s ev :
    reachable p s -> enabled p s ev = true ->
    reachable p (fst (handle s ev))
| reach_default s : reachable p s -> reachable p (effectDefaultStyle p s)
| reach_reset s : reachable p s -> reachable p (effectResetStyle p s).

(** The finalize transition: from a reachable state, with the button
    enabled, a click makes the call [c]. *)
Definition finalizeFires (p : Props) (c : Call) : Prop :=
  exists s, reachable p s /\ enabled p s ClickFinalize = true
            /\ In c (snd (handle s ClickFinalize)).

End Component.

End ScriptGeneratorModal.

(* ================================================================== *)
(** ** src/components/HistoryDetailModal.tsx *)

Module HistoryDetailModal.

Section Component.

Context {imports : Imports}.

(** [SeoContent] and [ScriptHistoryItem] of [../types], with the fields
    that the component reads. *)
Record SeoContent : Type := {
  title : string;
  description : string;
  tags : list string
}.

Record ScriptHistoryItem : Type := {
  idea : Service.Idea;
  jsonScript : string;
  seoContent : SeoContent
}.

(** The text content of the modal. [PrettyJson v n] stands for the text
    [JSON.stringify(v, null, n)]. *)
Inductive JsonView : Type :=
| PrettyJson (v : Json.value) (indent : nat).

Record View : Type := {
  heading : string;
  json : JsonView;
  seo : SeoContent
}.

(** Lines 29-33: no handler surrounds [JSON.parse]. *)
Definition renderJson (jsonString : string) : outcome JsonView :=
  match Json.parse jsonString with
  | Returned v => Returned (PrettyJson v 2)
  | Thrown e => Thrown e
  end.

(** Lines 12-118: the render of the component; [None] is [null]. *)
Definition render (item : option ScriptHistoryItem) : outcome (option View) :=
  match item with
  | None => Returned None
  | Some it =>
      match renderJson (jsonScript it) with
      | Returned j =>
          Returned (Some {| heading := Service.title (idea it);
                            json := j;
                            seo := seoContent it |})
      | Thrown e => Thrown e
      end
  end.

End Component.

End HistoryDetailModal.

(* ================================================================== *)
(** ** A sample of the imported declarations

    Used where a statement has to be tried on concrete data: the two
    enumerations are taken to be string enumerations, an enumeration member
    being the text it stands for. *)

Definition sampleImports : Imports := {|
  Genre := string;
  Duration := string;
  genreText := fun g => g;
  durationText := fun d => d;
  Shorts30 := "30 seconds";
  SYSTEM_PROMPT := "You are an ideas generator.";
  TRENDING_TOPICS_PROMPT := "You are a trend analyst.";
  SEO_SYSTEM_PROMPT := "You are an SEO expert.";
  getFinalizeScriptJsonPrompt := fun sceneDuration _ =>
    "Convert the script to JSON; scenes of at most " ++ sceneDuration ++ "s."
|}.

Definition sampleIdea : @Service.Idea sampleImports :=
  @Service.Build_Idea sampleImports
    "Lighthouse"                                  (* title *)
    "A keeper finds a message in a bottle."       (* concept *)
    "Discovery, doubt, reply."                    (* storyArc *)
    "Mystery"                                     (* genre *)
    "30 seconds"                                  (* duration *)
    "Waves, a creaking door."                     (* visualsAndAudio *).

(** The draft of the narration example: one numbered suggestion line, the
    line of three dashes, and a table of one row. *)
Definition calmLine : string := "1. **Calm:** soft tone *because it fits*".

Definition tableText : string :=
  "|Timestamp|Action|" ++ Str.nl ++ "|-|-|" ++ Str.nl ++ "|0:00|Open|".

Definition claimedDraft : string :=
  calmLine ++ ScriptGeneratorModal.separator ++ tableText.

Definition calm : ScriptGeneratorModal.Suggestion := {|
  ScriptGeneratorModal.name := "Calm";
  ScriptGeneratorModal.description := "soft tone";
  ScriptGeneratorModal.justification := "because it fits"
|}.

(** The properties of the modal when a draft is there, nothing is loading
    and no final script exists yet. *)
Definition draftReady : @ScriptGeneratorModal.Props sampleImports :=
  @ScriptGeneratorModal.Build_Props sampleImports
    (Some sampleIdea)   (* idea *)
    false               (* isLoading *)
    (Some tableText)    (* script *)
    None                (* finalJsonScript *).

(** An endpoint that answers every request with the same text, and one that
    fails on every request. *)
Definition answering (key text : string) : Service.Runtime := {|
  Service.API_KEY := Some key;
  Service.endpoint := fun _ => Returned text
|}.

Definition failing (key : string) (e : JsError) : Service.Runtime := {|
  Service.API_KEY := Some key;
  Service.endpoint := fun _ => Thrown e
|}.

Definition unconfigured : Service.Runtime := {|
  Service.API_KEY := None;
  Service.endpoint := fun _ => Returned "never asked"
|}.


(* ================================================================== *)
(** ** src/services/geminiService.ts: the script conversation

    Lines 34-99.  [SCRIPT_SYSTEM_PROMPT] comes from [../constants] and the
    chat object from the SDK; both are parameters. *)

Module ScriptChat.

Import Service.
Local Open Scope async_scope.

Record ChatConfig : Type := {
  chatModel : string;
  chatSystemInstruction : string
}.

(** The [Chat] object, as far as the service uses it: the configuration it
    was created with, and what its method [sendMessageStream] does with a
    message in its present state: it answers with a stream of text chunks,
    or fails. *)
Record Chat : Type := {
  config : ChatConfig;
  answerTo : string -> outcome (list string)
}.

(** [chat.sendMessageStream({ message })]: the message goes out as a
    request of the chat's model and system instruction. *)
Definition chatRequest (chat : Chat) (message : string) : Request :=
  {| model := chatModel (config chat);
     contents := message;
     systemInstruction := chatSystemInstruction (config chat);
     responseMimeType := None;
     responseSchemaRequired := None |}.

Definition sendMessageStream (chat : Chat) (message : string)
  : Async (list string) :=
  fun w =>
    (answerTo chat message,
     {| network := (network w ++ [chatRequest chat message])%list;
        console := console w |}).

Section Operations.

Context {imports : Imports}.
Variable SCRIPT_SYSTEM_PROMPT : string.
Variable chats_create : GoogleGenAI -> ChatConfig -> Chat.
Variable rt : Runtime.

(** Lines 34-42; not an [async] function, and it sends nothing. *)
Definition startScriptChat : outcome Chat :=
  match getGenAIClient rt with
  | Thrown e => Thrown e
  | Returned ai =>
      Returned (chats_create ai
                  {| chatModel := "gemini-2.5-pro";
                     chatSystemInstruction := SCRIPT_SYSTEM_PROMPT |})
  end.

Definition noNarrationConstraint (noNarration : bool) : string :=
  if noNarration
  then "**Constraint:** No Narration Required." ++ Str.nl
  else EmptyString.

(** Lines 51-63. *)
Definition initialScriptPrompt (idea : Idea) (sceneDuration : string)
    (noNarration : bool) (language : string) : string :=
  let languageConstraint :=
    "**Language:** Please write the entire script in " ++ language ++ "."
      ++ Str.nl in
  "Generate a production-ready script for the following idea." ++ Str.nl
    ++ "  " ++ Str.nl
    ++ "**Idea Title:** " ++ title idea ++ Str.nl
    ++ "**Concept:** " ++ concept idea ++ Str.nl
    ++ "**Story Arc:** " ++ storyArc idea ++ Str.nl
    ++ "**Genre:** " ++ genreText (genre idea) ++ Str.nl
    ++ Str.nl
    ++ noNarrationConstraint noNarration ++ Str.nl
    ++ languageConstraint ++ Str.nl
    ++ "The target duration for this scene is **" ++ sceneDuration ++ "**."
    ++ Str.nl.

(** Lines 44-72. *)
Definition generateInitialScriptStream (chat : Chat) (idea : Idea)
    (sceneDuration : string) (noNarration : bool) (language : string)
  : Async (list string) :=
  let userPrompt :=
    initialScriptPrompt idea sceneDuration noNarration language in
  tryCatch
    (response <- sendMessageStream chat userPrompt ;;
     ret response)
    (fun error =>
       console_error
         "Error calling Gemini API for initial script generation:" error ;;;
       throw (Error "Failed to generate initial script from Gemini API.")).

(** Line 83: the style line is there for a style that is given and not
    empty. *)
Definition styleConstraint (selectedNarrationStyle : option string) : string :=
  match selectedNarrationStyle with
  | Some style =>
      if Str.truthy style
      then "**Chosen Style:** Please ensure the tone and narration align with the "
             ++ Str.dq ++ style ++ Str.dq ++ " style." ++ Str.nl
      else EmptyString
  | None => EmptyString
  end.

(** Lines 82-90. *)
Definition regeneratePrompt (sceneDuration : string) (noNarration : bool)
    (language suggestion : string) (selectedNarrationStyle : option string)
  : string :=
  let languageConstraint :=
    "**Language:** The revised script must be in " ++ language ++ "."
      ++ Str.nl in
  "Please generate a revised script." ++ Str.nl
    ++ styleConstraint selectedNarrationStyle ++ Str.nl
    ++ languageConstraint ++ Str.nl
    ++ "**Suggestion:** Incorporate this feedback: "
    ++ Str.dq ++ suggestion ++ Str.dq ++ "." ++ Str.nl
    ++ noNarrationConstraint noNarration ++ Str.nl
    ++ "Please maintain the same Markdown table format and adhere to the target duration of **"
    ++ sceneDuration ++ "**.".

(** Lines 74-99. *)
Definition regenerateScriptStream (chat : Chat) (sceneDuration : string)
    (noNarration : bool) (language suggestion : string)
    (selectedNarrationStyle : option string) : Async (list string) :=
  let userPrompt :=
    regeneratePrompt sceneDuration noNarration language suggestion
      selectedNarrationStyle in
  tryCatch
    (response <- sendMessageStream chat userPrompt ;;
     ret response)
    (fun error =>
       console_error
         "Error calling Gemini API for script regeneration:" error ;;;
       throw (Error "Failed to regenerate script from Gemini API.")).

End Operations.

End ScriptChat.

(* ================================================================== *)
(** ** src/services/geminiService.ts: the video job

    Lines 135-190.  The loop of lines 160-163 has no bound of its own; the
    model runs it for at most [fuel] rounds and answers [None] when the job
    is still not done then. *)

Module Video.

Import Service.

Record VideoRequest : Type := {
  videoModel : string;
  prompt : string;
  numberOfVideos : Z;
  resolution : string;
  aspectRatio : string
}.

(** A job status: the flag [done] and the value of
    [operation.response?.generatedVideos?.[0]?.video?.uri], [None] for
    [undefined]. *)
Record Operation : Type := {
  done : bool;
  uri : option string
}.

(** A value thrown by the SDK or by [fetch], as far as the handler of lines
    183-189 looks at it: an instance of [Error] with its message, or
    anything else. *)
Inductive Rejection : Type :=
| WithError (message : string)
| WithOther.

Inductive answer (A : Type) : Type :=
| Answered (a : A)
| Rejected (r : Rejection).

Arguments Answered {A} a.
Arguments Rejected {A} r.

Record FetchResponse : Type := {
  ok : bool;
  statusText : string;
  (** [response.blob()] *)
  blob : answer string
}.

(** The outside of the operation: the video endpoint, whose answer to the
    [k]-th status request ([k] = 0, 1, ...) is [getVideosOperation k];
    [fetch]; and [URL.createObjectURL]. *)
Record Backend : Type := {
  generateVideos : VideoRequest -> answer Operation;
  getVideosOperation : nat -> answer Operation;
  fetch : string -> answer FetchResponse;
  createObjectURL : string -> string
}.

(** What a run does, in order. *)
Inductive Event : Type :=
| Submitted (request : VideoRequest)
| Slept (milliseconds : Z)
| Polled
| Fetched (url : string)
| Logged (label : string) (r : Rejection).

Section Operations.

Context {imports : Imports}.
Variable rt : Runtime.
Variable backend : Backend.

(** Lines 137-147. *)
Definition videoPrompt (idea : Idea) (visualStyle musicMood : string)
  : string :=
  Str.nl
    ++ "    Create a short video based on the following detailed creative brief."
    ++ Str.nl ++ Str.nl
    ++ "    **Title:** " ++ title idea ++ Str.nl
    ++ "    **Core Concept:** " ++ concept idea ++ Str.nl
    ++ "    **Detailed Cues:** " ++ visualsAndAudio idea ++ Str.nl
    ++ Str.nl
    ++ "    **Mandatory Creative Direction:**" ++ Str.nl
    ++ "    - **Visual Style:** Adhere strictly to a **" ++ visualStyle
    ++ "** aesthetic." ++ Str.nl
    ++ "    - **Audio Direction:** "
    ++ (if String.eqb musicMood "No Music"
        then "The video must not contain any background music. Rely only on sound effects as described in the cues."
        else "The video's soundtrack must be instrumental music with a clear **"
               ++ musicMood ++ "** mood.")
    ++ Str.nl ++ "  ".

Definition videoRequest (idea : Idea) (visualStyle musicMood : string)
  : VideoRequest :=
  {| videoModel := "veo-3.1-fast-generate-preview";
     prompt := videoPrompt idea visualStyle musicMood;
     numberOfVideos := 1;
     resolution := "720p";
     aspectRatio := "9:16" |}.

(** Lines 160-163: while the status is not done, wait ten seconds and ask
    again; [k] counts the status requests made so far. *)
Fixpoint poll (fuel k : nat) (operation : Operation) (log : list Event)
  {struct fuel} : option (answer Operation * list Event) :=
  if done operation then Some (Answered operation, log)
  else
    match fuel with
    | O => None
    | S fuel' =>
        let log' := (log ++ [Slept 10000; Polled])%list in
        match getVideosOperation backend k with
        | Answered next => poll fuel' (S k) next log'
        | Rejected r => Some (Rejected r, log')
        end
    end.

(** Lines 165-181: from the finished job to the object URL. *)
Definition download (operation : Operation) (log : list Event)
  : answer string * list Event :=
  match uri operation with
  | None =>
      (Rejected
         (WithError "Video generation succeeded but no download link was found."),
       log)
  | Some downloadLink =>
      if negb (Str.truthy downloadLink) then
        (Rejected
           (WithError "Video generation succeeded but no download link was found."),
         log)
      else
        match API_KEY rt with
        | None =>
            (Rejected
               (WithError "API_KEY environment variable is not set for downloading video."),
             log)
        | Some key =>
            if negb (Str.truthy key) then
              (Rejected
                 (WithError "API_KEY environment variable is not set for downloading video."),
               log)
            else
              let url := downloadLink ++ "&key=" ++ key in
              let log' := (log ++ [Fetched url])%list in
              match fetch backend url with
              | Rejected r => (Rejected r, log')
              | Answered response =>
                  if negb (ok response) then
                    (Rejected
                       (WithError ("Failed to download video: "
                                     ++ statusText response)),
                     log')
                  else
                    match blob response with
                    | Rejected r => (Rejected r, log')
                    | Answered videoBlob =>
                        (Answered (createObjectURL backend videoBlob), log')
                    end
              end
        end
  end.

(** Lines 183-189: the error that the handler throws for a caught value. *)
Definition rethrown (r : Rejection) : JsError :=
  match r with
  | WithError message => Error message
  | WithOther =>
      Error "Failed to generate video from Veo API due to an unknown error."
  end.

(** Lines 135-190.  [None]: the job was not done within [fuel] rounds. *)
Definition generateVideoForIdea (idea : Idea) (visualStyle musicMood : string)
    (fuel : nat) : option (outcome string * list Event) :=
  match getGenAIClient rt with
  | Thrown e => Some (Thrown e, [])
  | Returned ai =>
      let request := videoRequest idea visualStyle musicMood in
      let body : option (answer string * list Event) :=
        match generateVideos backend request with
        | Rejected r => Some (Rejected r, [Submitted request])
        | Answered operation =>
            match poll fuel 0 operation [Submitted request] with
            | None => None
            | Some (Rejected r, log) => Some (Rejected r, log)
            | Some (Answered finished, log) => Some (download finished log)
            end
        end in
      match body with
      | None => None
      | Some (Answered url, log) => Some (Returned url, log)
      | Some (Rejected r, log) =>
          Some (Thrown (rethrown r),
                (log ++ [Logged "Error calling Veo API for video generation:"
                           r])%list)
      end
  end.

End Operations.

(** The events of [n] rounds of waiting and asking. *)
Fixpoint rounds (n : nat) : list Event :=
  match n with
  | O => []
  | S n' => Slept 10000 :: Polled :: rounds n'
  end.

End Video.

(* ================================================================== *)
(** ** Sample surroundings for the video job *)

(** A job that is pending on submission and on the first two status
    requests and done, with a link, from the third on; and a download that
    succeeds. *)
Definition sampleBackend : Video.Backend := {|
  Video.generateVideos := fun _ =>
    Video.Answered {| Video.done := false; Video.uri := None |};
  Video.getVideosOperation := fun k =>
    if (k <? 2)%nat
    then Video.Answered {| Video.done := false; Video.uri := None |}
    else Video.Answered
           {| Video.done := true;
              Video.uri := Some "https://videos.example/v1?alt=media" |};
  Video.fetch := fun _ =>
    Video.Answered {| Video.ok := true; Video.statusText := "OK";
                      Video.blob := Video.Answered "bytes" |};
  Video.createObjectURL := fun body => "blob:" ++ body
|}.

(** A job that never gets done. *)
Definition stuckBackend : Video.Backend := {|
  Video.generateVideos := fun _ =>
    Video.Answered {| Video.done := false; Video.uri := None |};
  Video.getVideosOperation := fun _ =>
    Video.Answered {| Video.done := false; Video.uri := None |};
  Video.fetch := fun _ => Video.Rejected Video.WithOther;
  Video.createObjectURL := fun body => body
|}.

Definition sampleChat : ScriptChat.Chat := {|
  ScriptChat.config :=
    {| ScriptChat.chatModel := "gemini-2.5-pro";
       ScriptChat.chatSystemInstruction := "You are a scriptwriter." |};
  ScriptChat.answerTo := fun _ => Thrown TypeError
|}.

(** A job that is finished at once, without a link; and an endpoint that
    rejects the submission with an [Error] object. *)
Definition linklessBackend : Video.Backend := {|
  Video.generateVideos := fun _ =>
    Video.Answered {| Video.done := true; Video.uri := None |};
  Video.getVideosOperation := fun _ => Video.Rejected Video.WithOther;
  Video.fetch := fun _ => Video.Rejected Video.WithOther;
  Video.createObjectURL := fun body => body
|}.

Definition rejectingBackend : Video.Backend := {|
  Video.generateVideos := fun _ =>
    Video.Rejected (Video.WithError "quota exceeded");
  Video.getVideosOperation := fun _ => Video.Rejected Video.WithOther;
  Video.fetch := fun _ => Video.Rejected Video.WithOther;
  Video.createObjectURL := fun body => body
|}.

(** The draft of the narration example under a heading. *)
Definition headedDraft : string :=
  ("### Suggested Narration Styles" ++ Str.nl ++ calmLine)
    ++ ScriptGeneratorModal.separator ++ tableText.
(* ================================================================== *)
(** * Properties *)

Unset Implicit Arguments.

(** ** Facts about the string primitives *)

Module StrFacts.

Import Str.

Lemma append_empty_r (s : string) : s ++ EmptyString = s.
Proof. induction s as [|c r IH]; simpl; [reflexivity | now rewrite IH]. Qed.

Lemma append_assoc (a b c : string) : (a ++ b) ++ c = a ++ (b ++ c).
Proof. induction a as [|x r IH]; simpl; [reflexivity | now rewrite IH]. Qed.

Lemma length_append (a b : string) :
  String.length (a ++ b) = String.length a + String.length b.
Proof. induction a as [|x r IH]; simpl; [reflexivity | now rewrite IH]. Qed.

Lemma isEmpty_true (s : string) : isEmpty s = true -> s = EmptyString.
Proof. destruct s; simpl; [reflexivity | discriminate]. Qed.

Lemma Char_isWhiteSpace_toLower (c : ascii) :
  Char.isWhiteSpace (Char.toLower c) = Char.isWhiteSpace c.
Proof. destruct c as [[] [] [] [] [] [] [] []]; reflexivity. Qed.

Lemma prefix_empty_l (s : string) : String.prefix EmptyString s = true.
Proof. destruct s; reflexivity. Qed.

(** *** Trimming *)

Lemma trimStart_first (s : string) :
  match firstChar s with
  | Some c => Char.isWhiteSpace c = false
  | None => True
  end ->
  trimStart s = s.
Proof.
  destruct s as [|c r]; simpl; [reflexivity | intros ->; reflexivity].
Qed.

Lemma trimEnd_last (s : string) :
  match lastChar s with
  | Some c => Char.isWhiteSpace c = false
  | None => True
  end ->
  trimEnd s = s.
Proof.
  induction s as [|c r IH]; [reflexivity |].
  destruct r as [|c' r'].
  - simpl. intros ->. reflexivity.
  - intros H. change (lastChar (String c (String c' r')))
      with (lastChar (String c' r')) in H.
    specialize (IH H).
    change (trimEnd (String c (String c' r')))
      with (let t := trimEnd (String c' r') in
            if Char.isWhiteSpace c && isEmpty t
            then EmptyString else String c t).
    rewrite IH. simpl. now rewrite andb_false_r.
Qed.

Lemma trim_clean (s : string) : noOuterWhiteSpace s = true -> trim s = s.
Proof.
  unfold noOuterWhiteSpace, trim. intros H.
  destruct s as [|c r]; [reflexivity |].
  assert (Hl : exists l, lastChar (String c r) = Some l).
  { clear H. revert c. induction r as [|c' r' IH]; intros c.
    - now exists c.
    - destruct (IH c') as [l Hl]. exists l. exact Hl. }
  destruct Hl as [l Hl]. simpl firstChar in H. rewrite Hl in H.
  apply andb_true_iff in H. destruct H as [Hc Hlast].
  apply negb_true_iff in Hc. apply negb_true_iff in Hlast.
  rewrite trimStart_first by (simpl; exact Hc).
  apply trimEnd_last. now rewrite Hl.
Qed.


(** *** Suffixes and substrings *)

Lemma endsWith_append (x p : string) : endsWith (x ++ p) p = true.
Proof.
  induction x as [|c r IH].
  - destruct p; simpl; rewrite ?Ascii.eqb_refl, ?String.eqb_refl; reflexivity.
  - simpl. rewrite IH. apply orb_true_r.
Qed.

Lemma stdlib_substring_0_append (x y : string) :
  String.substring 0 (String.length x) (x ++ y) = x.
Proof. induction x as [|c r IH]; simpl; [now destruct y | now rewrite IH]. Qed.

Lemma substring_front (x y : string) (n : nat) :
  n = String.length x -> substring 0 n (x ++ y) = x.
Proof.
  intros ->. unfold substring.
  rewrite Nat.min_0_l, Nat.max_0_l, Nat.sub_0_r.
  apply stdlib_substring_0_append.
Qed.

(** *** White space at the front *)

Lemma trimStart_append (a b : string) :
  trimStart a <> EmptyString -> trimStart (a ++ b) = trimStart a ++ b.
Proof.
  induction a as [|c r IH]; simpl.
  - intros H. now contradiction H.
  - destruct (Char.isWhiteSpace c); [exact IH | reflexivity].
Qed.

Lemma toLowerCase_append (a b : string) :
  toLowerCase (a ++ b) = toLowerCase a ++ toLowerCase b.
Proof. induction a as [|c r IH]; simpl; [reflexivity | now rewrite IH]. Qed.

Lemma toLowerCase_trimStart (s : string) :
  toLowerCase (trimStart s) = trimStart (toLowerCase s).
Proof.
  induction s as [|c r IH]; simpl; [reflexivity |].
  rewrite Char_isWhiteSpace_toLower.
  destruct (Char.isWhiteSpace c); [exact IH | reflexivity].
Qed.

(** A text that starts with a code unit other than white space is found in
    [s] exactly when it is found in [s] without its leading white space. *)
Lemma includes_trimStart (s : string) (c : ascii) (p : string) :
  Char.isWhiteSpace c = false ->
  includes (trimStart s) (String c p) = includes s (String c p).
Proof.
  intros Hc. induction s as [|a r IH]; [reflexivity |].
  simpl trimStart. destruct (Char.isWhiteSpace a) eqn:Ha; [|reflexivity].
  rewrite IH. simpl.
  destruct (ascii_dec c a) as [->|_]; [congruence | reflexivity].
Qed.

Lemma includes_nonempty (s : string) (c : ascii) (p : string) :
  includes s (String c p) = true -> s <> EmptyString.
Proof. destruct s; [discriminate | discriminate]. Qed.

Lemma includes_append_l (a b p : string) :
  includes a p = true -> includes (a ++ b) p = true.
Proof.
  assert (Hpre : forall x y, String.prefix p x = true ->
                             String.prefix p (x ++ y) = true).
  { induction p as [|c q IHq]; intros x y.
    - intros _. apply prefix_empty_l.
    - destruct x as [|a' x']; simpl; [discriminate |].
      destruct (ascii_dec c a'); [apply IHq | discriminate]. }
  induction a as [|c r IH].
  - simpl. rewrite orb_false_r. intros H.
    destruct p; [destruct b; reflexivity | discriminate].
  - intros H.
    change (includes (String c r) p)
      with (String.prefix p (String c r) || includes r p) in H.
    change (includes (String c r ++ b) p)
      with (String.prefix p (String c r ++ b) || includes (r ++ b) p).
    apply orb_true_iff in H. destruct H as [H | H].
    + now rewrite (Hpre _ _ H).
    + rewrite (IH H). apply orb_true_r.
Qed.

(** *** The last code unit *)

Lemma lastChar_append (x y : string) :
  y <> EmptyString -> lastChar (x ++ y) = lastChar y.
Proof.
  intros Hy. induction x as [|c r IH]; [reflexivity |].
  simpl append. destruct (r ++ y) eqn:E.
  - destruct r; [simpl in E; contradiction | discriminate].
  - exact IH.
Qed.

Lemma trimEnd_append_clean (x y : string) (c : ascii) :
  lastChar y = Some c -> Char.isWhiteSpace c = false ->
  trimEnd (x ++ y) = x ++ y.
Proof.
  intros Hlast Hc. apply trimEnd_last.
  rewrite lastChar_append, Hlast; [exact Hc |].
  intros ->. discriminate.
Qed.

(** *** Splitting *)

Lemma splitFrom_nonempty (sep : string) (s : string) (k : nat) :
  splitFrom sep k s <> [].
Proof.
  revert k. induction s as [|c r IH]; intros k; cbn [splitFrom];
    [discriminate |].
  destruct k as [|k]; [|apply IH].
  destruct (String.prefix sep (String c r)); [discriminate |].
  destruct (splitFrom sep 0 r); discriminate.
Qed.

Lemma includes_singleton_cons (a c : ascii) (r : string) :
  includes (String a r) (singleton c) = false ->
  a <> c /\ includes r (singleton c) = false.
Proof.
  simpl. destruct (ascii_dec c a) as [->|Hne].
  - now rewrite prefix_empty_l.
  - simpl. intros H. split; [congruence | exact H].
Qed.

(** A front [x] that lacks the first code unit of the separator stays in
    one piece and is glued to the first piece of what follows. *)
Lemma splitFrom_front (c : ascii) (sep' x rest : string) :
  includes x (singleton c) = false ->
  splitFrom (String c sep') 0 (x ++ rest)
  = (x ++ hd EmptyString (splitFrom (String c sep') 0 rest))
      :: tl (splitFrom (String c sep') 0 rest).
Proof.
  intros Hx. induction x as [|a r IH].
  - simpl append.
    destruct (splitFrom (String c sep') 0 rest) eqn:E; [|reflexivity].
    now apply splitFrom_nonempty in E.
  - apply includes_singleton_cons in Hx. destruct Hx as [Hne Hr].
    simpl append.
    change (splitFrom (String c sep') 0 (String a (r ++ rest)))
      with (if String.prefix (String c sep') (String a (r ++ rest))
            then EmptyString
                 :: splitFrom (String c sep')
                      (String.length (String c sep') - 1) (r ++ rest)
            else match splitFrom (String c sep') 0 (r ++ rest) with
                 | h :: t => String a h :: t
                 | [] => [singleton a]
                 end).
    replace (String.prefix (String c sep') (String a (r ++ rest)))
      with false.
    + rewrite (IH Hr). reflexivity.
    + simpl. destruct (ascii_dec c a); [congruence | reflexivity].
Qed.

(** Splitting at a single code unit: the front up to its first
    occurrence is the first piece. *)
Lemma split_singleton (c : ascii) (x y : string) :
  includes x (singleton c) = false ->
  split (singleton c) (x ++ String c y) = x :: split (singleton c) y.
Proof.
  intros Hx. unfold split, singleton.
  rewrite (splitFrom_front c EmptyString x (String c y) Hx).
  simpl. destruct (ascii_dec c c) as [_|Hne]; [|contradiction].
  rewrite prefix_empty_l. simpl. now rewrite append_empty_r.
Qed.

Lemma split_nl (x y : string) :
  includes x nl = false -> split nl (x ++ nl ++ y) = x :: split nl y.
Proof. exact (split_singleton Char.LF x y). Qed.

(** *** Texts found behind leading white space *)

Lemma includes_trimStart_true (s p : string) :
  includes (trimStart s) p = true -> includes s p = true.
Proof.
  induction s as [|c r IH]; [trivial |].
  simpl trimStart. destruct (Char.isWhiteSpace c); [|trivial].
  intros H.
  change (includes (String c r) p)
    with (String.prefix p (String c r) || includes r p).
  rewrite (IH H). apply orb_true_r.
Qed.

Lemma includes_trimStart_false (s p : string) :
  includes s p = false -> includes (trimStart s) p = false.
Proof.
  intros H. destruct (includes (trimStart s) p) eqn:E; [|reflexivity].
  apply includes_trimStart_true in E. congruence.
Qed.

(** Trimming a text whose first part is not blank and which ends in a code
    unit other than white space only removes the leading white space. *)
Lemma trim_append (front rest : string) (c : ascii) :
  trimStart front <> EmptyString ->
  lastChar rest = Some c -> Char.isWhiteSpace c = false ->
  trim (front ++ rest) = trimStart front ++ rest.
Proof.
  intros Hfront Hlast Hc. unfold trim.
  rewrite (trimStart_append _ _ Hfront).
  exact (trimEnd_append_clean _ _ _ Hlast Hc).
Qed.

End StrFacts.

(* ================================================================== *)
(** ** The JSON reader always comes to a verdict

    The remainder that a reader hands back is never longer than its
    input, so the fuel of [Json.fuelFor] is never used up: a text that
    [Json.parse] refuses is refused for its syntax. *)

Module JsonFacts.

Import Json.

Lemma skipWs_length (s : string) : String.length (skipWs s) <= String.length s.
Proof.
  induction s as [|c r IH]; simpl; [lia |].
  destruct (Char.isJsonWhiteSpace c); simpl; lia.
Qed.

Lemma expect_length (c : ascii) (s r : string) :
  expect c s = Some r -> String.length s = S (String.length r).
Proof.
  destruct s as [|a t]; simpl; [discriminate |].
  destruct (Ascii.eqb a c); [|discriminate]. now intros [= ->].
Qed.

Lemma takeDigits_length (s ds r : string) :
  takeDigits s = (ds, r) -> String.length r <= String.length s.
Proof.
  revert ds r. induction s as [|c t IH]; simpl; intros ds r.
  - intros [= <- <-]. simpl. lia.
  - destruct (Char.isDigit c).
    + destruct (takeDigits t) as [ds' r'] eqn:E. intros [= <- <-].
      specialize (IH _ _ eq_refl). lia.
    + intros [= <- <-]. simpl. lia.
Qed.

Lemma consLexeme_some (p : string) (o : option (string * string)) (b r : string) :
  consLexeme p o = Some (b, r) -> exists b', o = Some (b', r).
Proof.
  destruct o as [[b' r']|]; simpl; [|discriminate].
  intros [= <- <-]. now exists b'.
Qed.

Lemma stringBody_length_upto (n : nat) :
  forall s b r, String.length s <= n -> stringBody s = Some (b, r) ->
                String.length r < String.length s.
Proof.
  induction n as [|n IH]; intros s b r Hn.
  - destruct s; [discriminate | simpl in Hn; lia].
  - destruct s as [|c t]; [discriminate |].
    simpl in Hn. cbn [stringBody].
    destruct (Ascii.eqb c Char.DQ).
    { intros [= <- <-]. simpl. lia. }
    destruct (Ascii.eqb c "\").
    + destruct t as [|e t1]; [discriminate |].
      destruct (isSimpleEscape e).
      * intros H. apply consLexeme_some in H. destruct H as [b' H].
        apply IH in H; simpl in *; lia.
      * destruct (Ascii.eqb e "u"); [|discriminate].
        destruct t1 as [|h1 [|h2 [|h3 [|h4 t2]]]]; try discriminate.
        destruct (Char.isHexDigit h1 && Char.isHexDigit h2
                  && Char.isHexDigit h3 && Char.isHexDigit h4); [|discriminate].
        intros H. apply consLexeme_some in H. destruct H as [b' H].
        apply IH in H; simpl in *; lia.
    + destruct (Char.code c <? 32)%N; [discriminate |].
      intros H. apply consLexeme_some in H. destruct H as [b' H].
      apply IH in H; simpl in *; lia.
Qed.

Lemma stringBody_length (s b r : string) :
  stringBody s = Some (b, r) -> String.length r < String.length s.
Proof. apply (stringBody_length_upto (String.length s)). lia. Qed.

Lemma intPart_length (s i r : string) :
  intPart s = Some (i, r) -> String.length r <= String.length s.
Proof.
  destruct s as [|c t]; simpl; [discriminate |].
  destruct (Ascii.eqb c "0").
  - intros [= <- <-]. lia.
  - destruct (Char.isDigit c); [|discriminate].
    destruct (takeDigits t) as [ds r'] eqn:E. intros [= <- <-].
    apply takeDigits_length in E. lia.
Qed.

Lemma fracPart_length (s f r : string) :
  fracPart s = Some (f, r) -> String.length r <= String.length s.
Proof.
  unfold fracPart. destruct (expect "." s) as [t|] eqn:E.
  - apply expect_length in E.
    destruct (takeDigits t) as [ds r'] eqn:D.
    destruct (Str.isEmpty ds); [discriminate |]. intros [= <- <-].
    apply takeDigits_length in D. lia.
  - intros [= <- <-]. lia.
Qed.

Lemma expDigits_length (mark s e r : string) :
  expDigits mark s = Some (e, r) -> String.length r <= String.length s.
Proof.
  unfold expDigits. destruct (takeDigits s) as [ds r'] eqn:D.
  destruct (Str.isEmpty ds); [discriminate |]. intros [= <- <-].
  now apply takeDigits_length in D.
Qed.

Lemma expPart_length (s e r : string) :
  expPart s = Some (e, r) -> String.length r <= String.length s.
Proof.
  destruct s as [|c t]; simpl.
  - intros [= <- <-]. simpl. lia.
  - destruct (Ascii.eqb c "e" || Ascii.eqb c "E").
    + destruct t as [|sg t1]; [discriminate |].
      destruct (Ascii.eqb sg "+" || Ascii.eqb sg "-"); intros H;
        apply expDigits_length in H; simpl in *; lia.
    + intros [= <- <-]. simpl. lia.
Qed.

Lemma number_length (s lexeme r : string) :
  number s = Some (lexeme, r) -> String.length r <= String.length s.
Proof.
  unfold number.
  assert (Hsign : forall sign s1,
            match expect "-" s with
            | Some t => ("-", t)
            | None => (EmptyString, s)
            end = (sign, s1) -> String.length s1 <= String.length s).
  { intros sign s1. destruct (expect "-" s) as [t|] eqn:E.
    - apply expect_length in E. intros [= <- <-]. lia.
    - intros [= <- <-]. lia. }
  destruct (match expect "-" s with
            | Some t => ("-", t)
            | None => (EmptyString, s)
            end) as [sign s1] eqn:E.
  specialize (Hsign _ _ eq_refl).
  destruct (intPart s1) as [[i s2]|] eqn:E1; [|discriminate].
  destruct (fracPart s2) as [[f s3]|] eqn:E2; [|discriminate].
  destruct (expPart s3) as [[e s4]|] eqn:E3; [|discriminate].
  intros [= <- <-].
  apply intPart_length in E1. apply fracPart_length in E2.
  apply expPart_length in E3. lia.
Qed.

Lemma substring_length (n m : nat) (s : string) :
  String.length (String.substring n m s) <= String.length s.
Proof.
  revert n m. induction s as [|c t IH]; intros n m.
  - destruct n, m; simpl; lia.
  - destruct n as [|n].
    + destruct m as [|m]; simpl; [lia |]. specialize (IH 0 m). lia.
    + simpl. specialize (IH n m). lia.
Qed.

Lemma keyword_length (kw : string) (v v' : value) (s r : string) :
  keyword kw v s = Good v' r -> String.length r <= String.length s.
Proof.
  unfold keyword. destruct (String.prefix kw s); [|discriminate].
  intros [= <- <-]. apply substring_length.
Qed.

Ltac presult_cases :=
  repeat match goal with
  | |- context [match ?x with Good _ _ => _ | Bad => _ | OutOfFuel => _ end] =>
      let E := fresh "E" in destruct x eqn:E
  | |- context [match ?x with Some _ => _ | None => _ end] =>
      let E := fresh "E" in destruct x eqn:E
  | |- context [match ?x with (_, _) => _ end] =>
      let E := fresh "E" in destruct x eqn:E
  | |- context [if ?b then _ else _] =>
      let E := fresh "E" in destruct b eqn:E
  end.

Ltac use_lengths IHv IHe IHm :=
  repeat match goal with
  | H : expect _ _ = Some _ |- _ => apply expect_length in H
  | H : parseValue _ _ = Good _ _ |- _ => apply IHv in H
  | H : parseElements _ _ = Good _ _ |- _ => apply IHe in H
  | H : parseMembers _ _ = Good _ _ |- _ => apply IHm in H
  | H : stringBody _ = Some _ |- _ => apply stringBody_length in H
  | H : number _ = Some _ |- _ => apply number_length in H
  | H : keyword _ _ _ = Good _ _ |- _ => apply keyword_length in H
  | H : context [skipWs ?t] |- _ =>
      lazymatch goal with
      | _ : String.length (skipWs t) <= String.length t |- _ => fail
      | _ => pose proof (skipWs_length t)
      end
  end.

Lemma parse_length (fuel : nat) :
  (forall s v r, parseValue fuel s = Good v r ->
                 String.length r <= String.length s)
  /\ (forall s vs r, parseElements fuel s = Good vs r ->
                     String.length r <= String.length s)
  /\ (forall s ms r, parseMembers fuel s = Good ms r ->
                     String.length r <= String.length s).
Proof.
  induction fuel as [|fuel (IHv & IHe & IHm)].
  - repeat split; intros; discriminate.
  - repeat split.
    + intros s v r. cbn [parseValue].
      pose proof (skipWs_length s) as Hws.
      destruct (skipWs s) as [|c t] eqn:Es; [discriminate |].
      presult_cases; intros H; try discriminate;
        try (injection H as <- <-);
        use_lengths IHv IHe IHm; simpl in *; lia.
    + intros s vs r. cbn [parseElements].
      presult_cases; intros H; try discriminate;
        try (injection H as <- <-);
        use_lengths IHv IHe IHm; simpl in *; lia.
    + intros s ms r. cbn [parseMembers].
      presult_cases; intros H; try discriminate;
        try (injection H as <- <-);
        use_lengths IHv IHe IHm; simpl in *; lia.
Qed.

Ltac fuel_contra IHv IHe IHm :=
  exfalso;
  match goal with
  | H : parseValue _ ?x = OutOfFuel |- _ =>
      apply (IHv x); [simpl in *; lia | exact H]
  | H : parseElements _ ?x = OutOfFuel |- _ =>
      apply (IHe x); [simpl in *; lia | exact H]
  | H : parseMembers _ ?x = OutOfFuel |- _ =>
      apply (IHm x); [simpl in *; lia | exact H]
  end.

Lemma parse_fuel (fuel : nat) :
  (forall s, 2 * String.length s + 1 <= fuel ->
             parseValue fuel s <> OutOfFuel)
  /\ (forall s, 2 * String.length s + 2 <= fuel ->
                parseElements fuel s <> OutOfFuel)
  /\ (forall s, 2 * String.length s + 2 <= fuel ->
                parseMembers fuel s <> OutOfFuel).
Proof.
  induction fuel as [|fuel (IHv & IHe & IHm)].
  - repeat split; intros s Hs; lia.
  - destruct (parse_length fuel) as (Lv & Le & Lm).
    repeat split.
    + intros s Hs. cbn [parseValue].
      pose proof (skipWs_length s) as Hws.
      destruct (skipWs s) as [|c t] eqn:Es; [discriminate |].
      unfold keyword.
      presult_cases; try discriminate;
        use_lengths Lv Le Lm; fuel_contra IHv IHe IHm.
    + intros s Hs. cbn [parseElements].
      presult_cases; try discriminate;
        use_lengths Lv Le Lm; fuel_contra IHv IHe IHm.
    + intros s Hs. cbn [parseMembers].
      presult_cases; try discriminate;
        use_lengths Lv Le Lm; fuel_contra IHv IHe IHm.
Qed.

Theorem parseValue_enough_fuel (text : string) :
  parseValue (fuelFor text) text <> OutOfFuel.
Proof. apply (proj1 (parse_fuel (fuelFor text))). unfold fuelFor. lia. Qed.

Lemma parse_thrown (text : string) (e : JsError) :
  parse text = Thrown e ->
  e = SyntaxError
  /\ (parseValue (fuelFor text) text = Bad
      \/ exists v rest,
           parseValue (fuelFor text) text = Good v rest
           /\ Str.isEmpty (skipWs rest) = false).
Proof.
  unfold parse. pose proof (parseValue_enough_fuel text) as Hfuel.
  destruct (parseValue (fuelFor text) text) as [| |v rest] eqn:E.
  - now contradiction Hfuel.
  - intros [= <-]. split; [reflexivity | now left].
  - destruct (Str.isEmpty (skipWs rest)) eqn:Ew; [discriminate |].
    intros [= <-]. split; [reflexivity |]. right. now exists v, rest.
Qed.

End JsonFacts.

(* ================================================================== *)
(** ** The generation service *)

Section ServiceProperties.

Context {imports : Imports}.

Import Service.

Lemma getGenAIClient_missing (rt : Runtime) :
  hasCredential rt = false ->
  getGenAIClient rt = Thrown (Error "API_KEY environment variable is not set.").
Proof.
  unfold hasCredential, getGenAIClient.
  destruct (API_KEY rt) as [key|]; [|reflexivity].
  intros ->. reflexivity.
Qed.

Lemma getGenAIClient_present (rt : Runtime) :
  hasCredential rt = true ->
  exists ai, getGenAIClient rt = Returned ai.
Proof.
  unfold hasCredential, getGenAIClient.
  destruct (API_KEY rt) as [key|]; [|discriminate].
  intros ->. now exists {| apiKey := key |}.
Qed.

(** With a credential, the operations come down to what they do with the
    answer of the endpoint. *)
Ltac with_client rt H :=
  let ai := fresh "ai" in
  let Hai := fresh "Hai" in
  destruct (getGenAIClient_present rt H) as [ai Hai];
  unfold bind, lift, tryCatch, generateContent, ret, throw, console_error;
  rewrite Hai.

Lemma finalizeScriptAsJson_answer (rt : Runtime)
    (finalScript sceneDuration : string) (numberOfScenes : option Z)
    (w : World) (text : string) :
  hasCredential rt = true ->
  endpoint rt (finalizeRequest finalScript sceneDuration numberOfScenes)
    = Returned text ->
  fst (finalizeScriptAsJson rt finalScript sceneDuration numberOfScenes w)
    = Returned (stripJsonFences text).
Proof.
  intros Hkey Hans. unfold finalizeScriptAsJson.
  with_client rt Hkey. rewrite Hans. reflexivity.
Qed.

Lemma stripJsonFences_scene :
  stripJsonFences
    ("```json" ++ Str.nl ++ "[{" ++ Str.dq ++ "scene" ++ Str.dq ++ ":1}]"
       ++ Str.nl ++ "```")
  = "[{" ++ Str.dq ++ "scene" ++ Str.dq ++ ":1}]".
Proof. reflexivity. Qed.

(** C1.  Without a credential, listing ideas fails with the error of the
    missing API key, whatever the genre and the duration; it is not the
    error that the operation throws for a failed request, and the trace is
    left as it was: no request has been sent, nothing has been logged. *)
Theorem generateShortsIdeas_without_credential
    (rt : Runtime) (g : Genre) (d : Duration) (w : World) :
  hasCredential rt = false ->
  generateShortsIdeas rt g d w
    = (Thrown (Error "API_KEY environment variable is not set."), w)
  /\ network (snd (generateShortsIdeas rt g d w)) = network w
  /\ fst (generateShortsIdeas rt g d w)
       <> Thrown (Error "Failed to generate ideas from Gemini API.").
Proof.
  intros Hkey.
  assert (Hrun : generateShortsIdeas rt g d w
                 = (Thrown (Error "API_KEY environment variable is not set."),
                    w)).
  { unfold generateShortsIdeas, bind, lift.
    now rewrite (getGenAIClient_missing rt Hkey). }
  rewrite Hrun. split; [reflexivity | split; [reflexivity |]].
  simpl. discriminate.
Qed.

(** C2.  The text with a json fence around the one-scene array is stripped
    to exactly the array, and that is what the finalize operation returns
    when the endpoint answers with the fenced text. *)
Theorem finalizeScriptAsJson_strips_fences
    (rt : Runtime) (finalScript sceneDuration : string)
    (numberOfScenes : option Z) (w : World) :
  let fenced :=
    "```json" ++ Str.nl ++ "[{" ++ Str.dq ++ "scene" ++ Str.dq ++ ":1}]"
      ++ Str.nl ++ "```" in
  let clean := "[{" ++ Str.dq ++ "scene" ++ Str.dq ++ ":1}]" in
  hasCredential rt = true ->
  endpoint rt (finalizeRequest finalScript sceneDuration numberOfScenes)
    = Returned fenced ->
  stripJsonFences fenced = clean
  /\ fst (finalizeScriptAsJson rt finalScript sceneDuration numberOfScenes w)
     = Returned clean.
Proof.
  intros fenced clean Hkey Hans. split.
  - exact stripJsonFences_scene.
  - rewrite (finalizeScriptAsJson_answer _ _ _ _ _ _ Hkey Hans).
    exact (f_equal Returned stripJsonFences_scene).
Qed.

(** C4, as the code has it.  When the answer of the endpoint, once
    trimmed as [String.prototype.trim] does, is not valid JSON, the SEO
    operation fails with the plain error 'Failed to generate SEO content
    from Gemini API.', and a failed request makes it fail with that very
    same error: the code has one error for both. *)
Theorem generateSeoContent_unparsable
    (rt : Runtime) (finalJsonScript : string) (idea : Idea) (w : World)
    (text : string) (e : JsError) :
  hasCredential rt = true ->
  endpoint rt (seoRequest finalJsonScript idea) = Returned text ->
  Json.parse (Str.trim text) = Thrown e ->
  fst (generateSeoContent rt finalJsonScript idea w)
    = Thrown (Error "Failed to generate SEO content from Gemini API.")
  /\ forall (rt' : Runtime) (e' : JsError),
       hasCredential rt' = true ->
       endpoint rt' (seoRequest finalJsonScript idea) = Thrown e' ->
       fst (generateSeoContent rt' finalJsonScript idea w)
         = Thrown (Error "Failed to generate SEO content from Gemini API.").
Proof.
  intros Hkey Hans Hbad. split.
  - unfold generateSeoContent. with_client rt Hkey.
    rewrite Hans, Hbad. reflexivity.
  - intros rt' e' Hkey' Hdown. unfold generateSeoContent.
    with_client rt' Hkey'. rewrite Hdown. reflexivity.
Qed.

(** C6.  The answer 'Cats, Dogs ,  Birds' gives the three topics in lower
    case and in order; an answer that is blank gives no topic. *)
Theorem getTrendingTopics_parses
    (rt : Runtime) (genres : list Genre) (w : World) (text : string) :
  hasCredential rt = true ->
  endpoint rt (trendingRequest genres) = Returned text ->
  (text = "Cats, Dogs ,  Birds" ->
   fst (getTrendingTopics rt genres w) = Returned ["cats"; "dogs"; "birds"])
  /\ (Str.trim text = EmptyString ->
      fst (getTrendingTopics rt genres w) = Returned []).
Proof.
  intros Hkey Hans.
  assert (Hrun : fst (getTrendingTopics rt genres w)
                 = Returned
                     (if negb (Str.truthy (Str.trim text)) then []
                      else map (fun topic => Str.toLowerCase (Str.trim topic))
                             (Str.split "," (Str.trim text)))).
  { unfold getTrendingTopics. with_client rt Hkey. rewrite Hans.
    destruct (negb (Str.truthy (Str.trim text))); reflexivity. }
  rewrite Hrun. split.
  - intros ->. reflexivity.
  - intros ->. reflexivity.
Qed.

(** C8.  A text that does not begin with the json fence, does not end
    with a fence and has no white space at either end comes back from the
    stripping step as it went in. *)
Theorem stripJsonFences_clean (text : string) :
  Str.startsWith text "```json" = false ->
  Str.endsWith text "```" = false ->
  Str.noOuterWhiteSpace text = true ->
  stripJsonFences text = text.
Proof.
  intros Hopen Hclose Hclean. unfold stripJsonFences.
  rewrite (StrFacts.trim_clean _ Hclean), Hopen, Hclose.
  exact (StrFacts.trim_clean _ Hclean).
Qed.


End ServiceProperties.

(** C4, as the claim words it, fails: on the answer 'not json' the
    operation throws the same error as on a failed request, so no error
    kind sets the two apart. *)
Lemma generateSeoContent_no_format_error :
  Json.parse (Str.trim "not json") = Thrown SyntaxError
  /\ ~ (exists e e' : JsError,
          fst (Service.generateSeoContent (imports := sampleImports)
                 (answering "key" "not json") "[]" sampleIdea Service.quiet)
            = Thrown e
          /\ fst (Service.generateSeoContent (imports := sampleImports)
                    (failing "key" TypeError) "[]" sampleIdea Service.quiet)
               = Thrown e'
          /\ e <> e').
Proof.
  split; [reflexivity |].
  intros (e & e' & He & He' & Hne).
  vm_compute in He, He'. congruence.
Qed.

(** The trimming comes first: a no-break space in front of an array is not
    JSON, but [trim] removes it, and the operation returns the array. *)
Remark generateSeoContent_trims_before_parsing :
  let text := String "160"%char "[1]" in
  Json.parse text = Thrown SyntaxError
  /\ fst (Service.generateSeoContent (imports := sampleImports)
            (answering "key" text) "[]" sampleIdea Service.quiet)
     = Returned (Json.Array [Json.Number "1"]).
Proof. split; reflexivity. Qed.

Lemma generateShortsIdeas_without_credential_witness :
  Service.hasCredential unconfigured = false
  /\ Service.generateShortsIdeas (imports := sampleImports)
       unconfigured "Mystery" "30 seconds" Service.quiet
     = (Thrown (Error "API_KEY environment variable is not set."),
        Service.quiet).
Proof.
  split; [reflexivity |].
  apply (generateShortsIdeas_without_credential (imports := sampleImports)
           unconfigured "Mystery" "30 seconds" Service.quiet).
  reflexivity.
Defined.

Lemma finalizeScriptAsJson_strips_fences_witness :
  let fenced :=
    "```json" ++ Str.nl ++ "[{" ++ Str.dq ++ "scene" ++ Str.dq ++ ":1}]"
      ++ Str.nl ++ "```" in
  let rt := answering "key" fenced in
  Service.hasCredential rt = true
  /\ fst (Service.finalizeScriptAsJson (imports := sampleImports)
            rt "| Timestamp | Action |" "15" None Service.quiet)
     = Returned ("[{" ++ Str.dq ++ "scene" ++ Str.dq ++ ":1}]").
Proof.
  intros fenced rt. split; [reflexivity |].
  exact (proj2 (finalizeScriptAsJson_strips_fences (imports := sampleImports)
                  rt "| Timestamp | Action |" "15" None Service.quiet
                  eq_refl eq_refl)).
Defined.

Lemma generateSeoContent_unparsable_witness :
  Service.hasCredential (answering "key" "not json") = true
  /\ Json.parse (Str.trim "not json") = Thrown SyntaxError
  /\ fst (Service.generateSeoContent (imports := sampleImports)
            (answering "key" "not json") "[]" sampleIdea Service.quiet)
     = Thrown (Error "Failed to generate SEO content from Gemini API.").
Proof.
  split; [reflexivity |]. split; [reflexivity |].
  exact (proj1 (generateSeoContent_unparsable (imports := sampleImports)
                  (answering "key" "not json") "[]" sampleIdea Service.quiet
                  "not json" SyntaxError eq_refl eq_refl eq_refl)).
Defined.

Lemma getTrendingTopics_parses_witness :
  Service.hasCredential (answering "key" "Cats, Dogs ,  Birds") = true
  /\ fst (Service.getTrendingTopics (imports := sampleImports)
            (answering "key" "Cats, Dogs ,  Birds") ["Mystery"] Service.quiet)
     = Returned ["cats"; "dogs"; "birds"]
  /\ fst (Service.getTrendingTopics (imports := sampleImports)
            (answering "key" "   ") ["Mystery"] Service.quiet)
     = Returned [].
Proof.
  split; [reflexivity |]. split.
  - exact (proj1 (getTrendingTopics_parses (imports := sampleImports)
                    (answering "key" "Cats, Dogs ,  Birds") ["Mystery"]
                    Service.quiet "Cats, Dogs ,  Birds" eq_refl eq_refl)
             eq_refl).
  - exact (proj2 (getTrendingTopics_parses (imports := sampleImports)
                    (answering "key" "   ") ["Mystery"]
                    Service.quiet "   " eq_refl eq_refl) eq_refl).
Defined.

Lemma stripJsonFences_clean_witness :
  let text := "[{" ++ Str.dq ++ "scene" ++ Str.dq ++ ":1}]" in
  Str.noOuterWhiteSpace text = true
  /\ Service.stripJsonFences text = text.
Proof.
  intros text. split; [reflexivity |].
  exact (stripJsonFences_clean text eq_refl eq_refl eq_refl).
Defined.


(* ================================================================== *)
(** ** The script generator modal *)

Section DraftParsing.

Import Str StrFacts Regex ScriptGeneratorModal.

Lemma find_all_false {A : Type} (f : A -> bool) (xs : list A) :
  (forall x, In x xs -> f x = false) -> find f xs = None.
Proof.
  induction xs as [|x rest IH]; intros H; [reflexivity |].
  simpl. rewrite (H x (or_introl eq_refl)). apply IH.
  intros y Hy. apply H. now right.
Qed.

(** *** Narration suggestions *)

Lemma heading_not_blank (heading : string) :
  includes (toLowerCase heading) "suggested narration styles" = true ->
  trimStart heading <> EmptyString.
Proof.
  intros Hs E.
  pose proof (includes_trimStart (toLowerCase heading)
                "s" "uggested narration styles" eq_refl) as H.
  rewrite <- toLowerCase_trimStart, E, Hs in H. discriminate.
Qed.

Lemma splitDraft_with_heading (heading : string) :
  includes heading nl = false ->
  includes (toLowerCase heading) "suggested narration styles" = true ->
  splitDraft (Some ((heading ++ nl ++ calmLine) ++ separator ++ tableText))
  = (Some (heading ++ nl ++ calmLine), Some tableText).
Proof.
  intros Hh Hs. unfold splitDraft.
  assert (Hne : heading <> EmptyString).
  { intros ->. discriminate. }
  replace (truthy ((heading ++ nl ++ calmLine) ++ separator ++ tableText))
    with true by (destruct heading; [contradiction | reflexivity]).
  cbn [negb].
  assert (Hparts :
    split separator ((heading ++ nl ++ calmLine) ++ separator ++ tableText)
    = [heading ++ nl ++ calmLine; tableText]).
  { rewrite append_assoc. unfold split.
    exact (splitFrom_front Char.LF ("---" ++ nl) heading
             ((nl ++ calmLine) ++ separator ++ tableText) Hh). }
  rewrite Hparts. cbn [List.length Nat.ltb Nat.leb nth andb].
  rewrite toLowerCase_append, (includes_append_l _ _ _ Hs).
  reflexivity.
Qed.

Lemma parsedSuggestions_with_heading (heading : string) :
  includes heading nl = false ->
  includes (toLowerCase heading) "suggested narration styles" = true ->
  matchRegex suggestionLinePattern (trimStart heading) = None ->
  parsedSuggestions (Some (heading ++ nl ++ calmLine)) = [calm].
Proof.
  intros Hh Hs Hline. unfold parsedSuggestions.
  pose proof (heading_not_blank heading Hs) as Hne.
  replace (truthy (heading ++ nl ++ calmLine)) with true
    by (destruct heading; [now contradiction Hne | reflexivity]).
  cbn [negb].
  rewrite (trim_append heading (nl ++ calmLine) "*" Hne eq_refl eq_refl).
  rewrite (split_nl _ _ (includes_trimStart_false _ _ Hh)).
  replace (split nl calmLine) with [calmLine] by reflexivity.
  cbn [filter]. rewrite Hline. cbn [isSome].
  reflexivity.
Qed.

(** C3, as the code has it.  The draft of the example, as given, has no
    heading that names the suggested narration styles: no suggestion is
    offered and the whole draft is the scene table.  With a heading line
    that contains 'suggested narration styles' in any letter case (and is
    not itself a numbered suggestion line) in front of it, the one
    suggestion Calm / soft tone / because it fits is found, and the scene
    table is the text after the line of three dashes. *)
Theorem parsedSuggestions_needs_heading (heading : string) :
  includes heading nl = false ->
  includes (toLowerCase heading) "suggested narration styles" = true ->
  matchRegex suggestionLinePattern (trimStart heading) = None ->
  let headed := (heading ++ nl ++ calmLine) ++ separator ++ tableText in
  (parsedSuggestions (narrationSuggestions (Some claimedDraft)) = []
   /\ scriptTable (Some claimedDraft) = Some claimedDraft)
  /\ (parsedSuggestions (narrationSuggestions (Some headed)) = [calm]
      /\ scriptTable (Some headed) = Some tableText).
Proof.
  intros Hh Hs Hline headed. split; [split; reflexivity |].
  unfold narrationSuggestions, scriptTable, headed.
  rewrite (splitDraft_with_heading heading Hh Hs). cbn [fst snd].
  split; [|reflexivity].
  exact (parsedSuggestions_with_heading heading Hh Hs Hline).
Qed.

(** *** The script table *)

Lemma renderScriptTable_header_first (header sep : string) :
  includes header "|" = true ->
  includes (toLowerCase header) "timestamp" = true ->
  includes header nl = false ->
  includes sep nl = false ->
  renderScriptTable (header ++ nl ++ sep ++ nl ++ "| 0:00 | Open |")
  = Returned
      (Table (filter truthy (map trim (split "|" (trimStart header))))
             [[["0:00"]; ["Open"]]]).
Proof.
  intros Hpipe Hstamp Hh Hsep.
  assert (Hpipe' : includes (trimStart header) "|" = true).
  { now rewrite includes_trimStart. }
  assert (Hstamp' :
    includes (toLowerCase (trimStart header)) "timestamp" = true).
  { rewrite toLowerCase_trimStart. now rewrite includes_trimStart. }
  assert (Hh' : includes (trimStart header) nl = false).
  { now apply includes_trimStart_false. }
  assert (Hlast :
    lastChar (nl ++ sep ++ nl ++ "| 0:00 | Open |") = Some "|"%char).
  { replace (nl ++ sep ++ nl ++ "| 0:00 | Open |")
      with ((nl ++ sep ++ nl) ++ "| 0:00 | Open |")
      by (now rewrite !append_assoc).
    now rewrite lastChar_append. }
  unfold renderScriptTable.
  rewrite (trim_append header (nl ++ sep ++ nl ++ "| 0:00 | Open |") "|"
             (includes_nonempty _ _ _ Hpipe') Hlast eq_refl).
  rewrite (split_nl _ _ Hh'), (split_nl _ _ Hsep).
  replace (split nl "| 0:00 | Open |") with ["| 0:00 | Open |"]
    by reflexivity.
  cbn [find]. unfold isHeaderLine at 1. rewrite Hpipe', Hstamp'.
  cbn [andb Arr.indexOf]. rewrite String.eqb_refl.
  reflexivity.
Qed.

Lemma renderScriptTable_no_header (markdown : string) :
  (forall line, In line (split nl (trim markdown)) ->
                includes line "|"
                && includes (toLowerCase line) "timestamp" = false) ->
  renderScriptTable markdown = Returned (Pre markdown).
Proof.
  intros H. unfold renderScriptTable.
  now rewrite (find_all_false isHeaderLine _ H).
Qed.

Lemma renderScriptTable_returns (markdown : string) :
  exists view, renderScriptTable markdown = Returned view.
Proof.
  unfold renderScriptTable.
  destruct (find isHeaderLine (split nl (trim markdown))); eauto.
Qed.

(** C5.  A block made of a header row (a line with a pipe that contains
    'timestamp' in any letter case), one separator row and the data row
    '| 0:00 | Open |' is rendered as a table with exactly one body row,
    whose two cells read 0:00 and Open.  A block none of whose lines is a
    pipe line with 'timestamp' is rendered as its own text; and the
    renderer returns on every text: it never throws. *)
Theorem renderScriptTable_table_or_verbatim (header sep markdown : string) :
  includes header "|" = true ->
  includes (toLowerCase header) "timestamp" = true ->
  includes header nl = false ->
  includes sep nl = false ->
  (forall line, In line (split nl (trim markdown)) ->
                includes line "|"
                && includes (toLowerCase line) "timestamp" = false) ->
  renderScriptTable (header ++ nl ++ sep ++ nl ++ "| 0:00 | Open |")
    = Returned
        (Table (filter truthy (map trim (split "|" (trimStart header))))
               [[["0:00"]; ["Open"]]])
  /\ renderScriptTable markdown = Returned (Pre markdown)
  /\ forall text, exists view, renderScriptTable text = Returned view.
Proof.
  intros Hpipe Hstamp Hh Hsep Hnone. split; [|split].
  - exact (renderScriptTable_header_first header sep Hpipe Hstamp Hh Hsep).
  - exact (renderScriptTable_no_header markdown Hnone).
  - exact renderScriptTable_returns.
Qed.

End DraftParsing.

(** C3, as the claim words it, fails: on the draft of the example the
    parser offers no suggestion, and the scene table is the whole draft. *)
Lemma parsedSuggestions_claimed_draft :
  ~ (ScriptGeneratorModal.parsedSuggestions
       (ScriptGeneratorModal.narrationSuggestions (Some claimedDraft))
     = [calm]
     /\ ScriptGeneratorModal.scriptTable (Some claimedDraft) = Some tableText).
Proof. intros [H _]. vm_compute in H. discriminate. Qed.

Lemma parsedSuggestions_needs_heading_witness :
  let heading := "### Suggested Narration Styles" in
  Str.includes heading Str.nl = false
  /\ ScriptGeneratorModal.parsedSuggestions
       (ScriptGeneratorModal.narrationSuggestions
          (Some ((heading ++ Str.nl ++ calmLine)
                   ++ ScriptGeneratorModal.separator ++ tableText)))
     = [calm]
  /\ ScriptGeneratorModal.scriptTable
       (Some ((heading ++ Str.nl ++ calmLine)
                ++ ScriptGeneratorModal.separator ++ tableText))
     = Some tableText.
Proof.
  intros heading. split; [reflexivity |].
  exact (proj2 (parsedSuggestions_needs_heading heading
                  eq_refl eq_refl eq_refl)).
Defined.

Lemma renderScriptTable_table_or_verbatim_witness :
  let header := "| Timestamp | Action |" in
  let sep := "|---|---|" in
  let plain := "Scene one: a door opens." ++ Str.nl ++ "Scene two: rain." in
  Str.includes (Str.toLowerCase header) "timestamp" = true
  /\ ScriptGeneratorModal.renderScriptTable
       (header ++ Str.nl ++ sep ++ Str.nl ++ "| 0:00 | Open |")
     = Returned
         (ScriptGeneratorModal.Table ["Timestamp"; "Action"]
            [[["0:00"]; ["Open"]]])
  /\ ScriptGeneratorModal.renderScriptTable plain
     = Returned (ScriptGeneratorModal.Pre plain).
Proof.
  intros header sep plain. split; [reflexivity |].
  assert (Hnone : forall line,
            In line (Str.split Str.nl (Str.trim plain)) ->
            Str.includes line "|"
            && Str.includes (Str.toLowerCase line) "timestamp" = false).
  { intros line [<- | [<- | []]]; reflexivity. }
  pose proof (renderScriptTable_table_or_verbatim header sep plain
                eq_refl eq_refl eq_refl eq_refl Hnone) as (Htable & Hpre & _).
  split; [exact Htable | exact Hpre].
Defined.

(** *** The finalize button *)

(** C7, evaluated on the code.  With a draft on display, the user can
    type 100 into the field of the scene duration and 0 into the field of
    the scene count, and press the button: the callback is called with the
    duration text 100, above the 60 that the field declares as its
    maximum, and with the scene count 0.  Clearing the duration field
    instead makes the call with an empty duration text. *)
Theorem finalize_passes_fields_unchecked :
  ScriptGeneratorModal.finalizeFires draftReady
    (ScriptGeneratorModal.OnFinalize "100" (Some (Num.Int 0)))
  /\ Num.parseInt10 "100" = Num.Int 100
  /\ ScriptGeneratorModal.finalizeFires draftReady
       (ScriptGeneratorModal.OnFinalize EmptyString None).
Proof.
  split; [|split; [reflexivity |]].
  - exists (fst (ScriptGeneratorModal.handle
              (fst (ScriptGeneratorModal.handle
                      (ScriptGeneratorModal.initialState draftReady)
                      (ScriptGeneratorModal.ChangeSceneDuration "100")))
              (ScriptGeneratorModal.ChangeSceneCount "0"))).
    split; [|split; [reflexivity | left; reflexivity]].
    apply ScriptGeneratorModal.reach_event; [|reflexivity].
    apply ScriptGeneratorModal.reach_event; [|reflexivity].
    apply ScriptGeneratorModal.reach_init.
  - exists (fst (ScriptGeneratorModal.handle
              (ScriptGeneratorModal.initialState draftReady)
              (ScriptGeneratorModal.ChangeSceneDuration EmptyString))).
    split; [|split; [reflexivity | left; reflexivity]].
    apply ScriptGeneratorModal.reach_event; [|reflexivity].
    apply ScriptGeneratorModal.reach_init.
Qed.

(* ================================================================== *)
(** ** The history detail modal *)

Section HistoryProperties.

Context {imports : Imports}.

Import HistoryDetailModal.

Lemma render_rethrows (item : ScriptHistoryItem) (e : JsError) :
  Json.parse (jsonScript item) = Thrown e -> render (Some item) = Thrown e.
Proof. intros H. unfold render, renderJson. now rewrite H. Qed.

(** C10.  Whatever the idea and the SEO content of a history item, if its
    stored script is the text 'not json' then [JSON.parse] refuses it and
    the render of the history modal throws that exception; the final-JSON
    view of the script modal shows the same text verbatim, and the draft
    table renderer returns on every text. *)
Theorem history_render_throws (idea : Service.Idea) (seo : SeoContent) :
  let item :=
    {| idea := idea; jsonScript := "not json"; seoContent := seo |} in
  Json.parse (jsonScript item) = Thrown SyntaxError
  /\ render (Some item) = Thrown SyntaxError
  /\ ScriptGeneratorModal.renderFinalJson (jsonScript item)
     = Returned (ScriptGeneratorModal.Pre (jsonScript item))
  /\ forall markdown, exists view,
       ScriptGeneratorModal.renderScriptTable markdown = Returned view.
Proof.
  intros item. split; [reflexivity |]. split; [|split].
  - apply render_rethrows. reflexivity.
  - reflexivity.
  - exact renderScriptTable_returns.
Qed.

End HistoryProperties.

(* ================================================================== *)
(** * Further properties *)

(** ** More facts about the string primitives *)

Module StrMore.

Import Str StrFacts.

(** *** What trimming leaves *)

Lemma firstChar_trimStart (s : string) :
  match firstChar (trimStart s) with
  | Some c => Char.isWhiteSpace c = false
  | None => True
  end.
Proof.
  induction s as [|c r IH]; simpl; [exact I |].
  destruct (Char.isWhiteSpace c) eqn:E; [exact IH | simpl; exact E].
Qed.

Lemma lastChar_trimEnd (s : string) :
  match lastChar (trimEnd s) with
  | Some c => Char.isWhiteSpace c = false
  | None => True
  end.
Proof.
  induction s as [|c r IH]; [exact I |].
  cbn [trimEnd].
  destruct (trimEnd r) as [|c' r'] eqn:E.
  - destruct (Char.isWhiteSpace c) eqn:Ec; simpl; [exact I | exact Ec].
  - rewrite andb_false_r. exact IH.
Qed.

Lemma firstChar_trimEnd (s : string) :
  trimEnd s = EmptyString \/ firstChar (trimEnd s) = firstChar s.
Proof.
  destruct s as [|c r]; [now left |].
  cbn [trimEnd].
  destruct (Char.isWhiteSpace c && isEmpty (trimEnd r)); [now left | now right].
Qed.

Lemma trim_trimmed (s : string) : noOuterWhiteSpace (trim s) = true.
Proof.
  unfold noOuterWhiteSpace, trim.
  pose proof (firstChar_trimStart s) as Hfirst.
  pose proof (lastChar_trimEnd (trimStart s)) as Hlast.
  destruct (firstChar_trimEnd (trimStart s)) as [E | E].
  - rewrite E. reflexivity.
  - rewrite E.
    destruct (firstChar (trimStart s)) as [a|]; [|reflexivity].
    destruct (lastChar (trimEnd (trimStart s))) as [b|]; [|reflexivity].
    now rewrite Hfirst, Hlast.
Qed.

Lemma trim_idempotent (s : string) : trim (trim s) = trim s.
Proof. apply trim_clean, trim_trimmed. Qed.

(** *** Parts of a text *)

(** [x] is a run of consecutive code units of [s]. *)
Lemma trimStart_suffix (s : string) : exists a, s = a ++ trimStart s.
Proof.
  induction s as [|c r [a IH]]; [now exists EmptyString |].
  simpl. destruct (Char.isWhiteSpace c).
  - exists (String c a). simpl. now rewrite <- IH.
  - now exists EmptyString.
Qed.

Lemma trimEnd_prefix (s : string) : exists b, s = trimEnd s ++ b.
Proof.
  induction s as [|c r [b IH]]; [now exists EmptyString |].
  cbn [trimEnd].
  destruct (Char.isWhiteSpace c && isEmpty (trimEnd r)).
  - now exists (String c r).
  - exists b. simpl. now rewrite <- IH.
Qed.

Lemma trim_part (s : string) : exists a b, s = a ++ trim s ++ b.
Proof.
  destruct (trimStart_suffix s) as [a Ha].
  destruct (trimEnd_prefix (trimStart s)) as [b Hb].
  exists a, b. unfold trim. now rewrite <- Hb.
Qed.

Lemma stdlib_substring_0_prefix (m : nat) (s : string) :
  exists b, s = String.substring 0 m s ++ b.
Proof.
  revert m. induction s as [|c r IH]; intros m.
  - exists EmptyString. now destruct m.
  - destruct m as [|m]; [now exists (String c r) |].
    destruct (IH m) as [b E]. exists b. simpl. now rewrite <- E.
Qed.

Lemma stdlib_substring_part (n m : nat) (s : string) :
  exists a b, s = a ++ String.substring n m s ++ b.
Proof.
  revert n. induction s as [|c r IH]; intros n.
  - exists EmptyString, EmptyString. now destruct n, m.
  - destruct n as [|n].
    + exists EmptyString. apply stdlib_substring_0_prefix.
    + destruct (IH n) as (a & b & E).
      exists (String c a), b. simpl. now rewrite <- E.
Qed.

Lemma substring_part (a b : nat) (s : string) :
  exists x y, s = x ++ substring a b s ++ y.
Proof. apply stdlib_substring_part. Qed.

Lemma part_trans (x y s a b c d : string) :
  s = a ++ y ++ b -> y = c ++ x ++ d -> s = (a ++ c) ++ x ++ (d ++ b).
Proof. intros -> ->. now rewrite !append_assoc. Qed.

Lemma prefix_append (p s : string) :
  String.prefix p s = true -> exists r, s = p ++ r.
Proof.
  revert s. induction p as [|c p IH]; intros s.
  - intros _. now exists s.
  - destruct s as [|a s]; simpl; [discriminate |].
    destruct (ascii_dec c a) as [->|]; [|discriminate].
    intros H. destruct (IH _ H) as [r ->]. now exists r.
Qed.

Lemma prefix_refl_append (p r : string) : String.prefix p (p ++ r) = true.
Proof.
  induction p as [|c p IH]; simpl; [apply prefix_empty_l |].
  destruct (ascii_dec c c); [exact IH | contradiction].
Qed.

Lemma includes_cons (c : ascii) (s p : string) :
  includes s p = true -> includes (String c s) p = true.
Proof.
  intros H.
  change (includes (String c s) p)
    with (String.prefix p (String c s) || includes s p).
  rewrite H. apply orb_true_r.
Qed.

Lemma includes_append_r (a b p : string) :
  includes b p = true -> includes (a ++ b) p = true.
Proof.
  intros H. induction a as [|c r IH]; [exact H |].
  simpl append. now apply includes_cons.
Qed.

Lemma includes_prefix (s p : string) :
  String.prefix p s = true -> includes s p = true.
Proof. intros H. destruct s; cbn [includes]; now rewrite H. Qed.

Lemma includes_self_prefix (p r : string) : includes (p ++ r) p = true.
Proof. apply includes_prefix, prefix_refl_append. Qed.

(** A text found in a part is found in the whole. *)
Lemma includes_part (a x b p : string) :
  includes x p = true -> includes (a ++ x ++ b) p = true.
Proof.
  intros H. apply includes_append_r. now apply includes_append_l.
Qed.

Lemma includes_middle (a p b : string) : includes (a ++ p ++ b) p = true.
Proof. apply includes_append_r, includes_self_prefix. Qed.

(** *** Lower case *)

Lemma Char_toLower_idempotent (c : ascii) :
  Char.toLower (Char.toLower c) = Char.toLower c.
Proof. destruct c as [[] [] [] [] [] [] [] []]; reflexivity. Qed.

Lemma toLowerCase_idempotent (s : string) :
  toLowerCase (toLowerCase s) = toLowerCase s.
Proof.
  induction s as [|c r IH]; simpl; [reflexivity |].
  now rewrite Char_toLower_idempotent, IH.
Qed.

Lemma lastChar_toLowerCase (s : string) :
  lastChar (toLowerCase s) = option_map Char.toLower (lastChar s).
Proof.
  induction s as [|c r IH]; [reflexivity |].
  destruct r as [|c' r']; [reflexivity |]. exact IH.
Qed.

Lemma noOuterWhiteSpace_toLowerCase (s : string) :
  noOuterWhiteSpace (toLowerCase s) = noOuterWhiteSpace s.
Proof.
  unfold noOuterWhiteSpace. rewrite lastChar_toLowerCase.
  destruct s as [|c r]; [reflexivity |].
  simpl firstChar. destruct (lastChar (String c r)) as [l|]; [|reflexivity].
  simpl. now rewrite !Char_isWhiteSpace_toLower.
Qed.

End StrMore.

(** ** Splitting and joining *)

Module SplitFacts.

Import Str StrFacts StrMore.

Lemma includes_false_cons (c : ascii) (s p : string) :
  includes (String c s) p = false ->
  String.prefix p (String c s) = false /\ includes s p = false.
Proof.
  change (includes (String c s) p)
    with (String.prefix p (String c s) || includes s p).
  apply orb_false_iff.
Qed.

Lemma splitFrom_cons (sep : string) (c : ascii) (r : string) :
  splitFrom sep 0 (String c r)
  = if String.prefix sep (String c r)
    then EmptyString :: splitFrom sep (String.length sep - 1) r
    else match splitFrom sep 0 r with
         | h :: t => String c h :: t
         | [] => [singleton c]
         end.
Proof. reflexivity. Qed.

Lemma prefix_singleton_cons (p c : ascii) (r : string) :
  String.prefix (singleton p) (String c r) = Ascii.eqb p c.
Proof.
  unfold singleton. cbn [String.prefix].
  destruct (ascii_dec p c) as [->|Hne].
  - now rewrite prefix_empty_l, Ascii.eqb_refl.
  - apply Ascii.eqb_neq in Hne. now rewrite Hne.
Qed.

(** A text without the separator is one piece. *)
Lemma split_whole (sep s : string) :
  includes s sep = false -> split sep s = [s].
Proof.
  unfold split. induction s as [|c r IH]; [reflexivity |].
  intros H. apply includes_false_cons in H. destruct H as [Hp Hr].
  rewrite splitFrom_cons, Hp, (IH Hr). reflexivity.
Qed.

(** The first piece is a front of the text. *)
Lemma split_head_prefix (sep s : string) :
  exists rest, s = hd EmptyString (split sep s) ++ rest.
Proof.
  unfold split. induction s as [|c r [rest IH]].
  - now exists EmptyString.
  - rewrite splitFrom_cons.
    destruct (String.prefix sep (String c r)).
    + now exists (String c r).
    + destruct (splitFrom sep 0 r) as [|h t] eqn:E.
      * now apply splitFrom_nonempty in E.
      * exists rest. simpl in *. now rewrite <- IH.
Qed.

Lemma splitFrom_skip (sep a r : string) :
  splitFrom sep (String.length a) (a ++ r) = splitFrom sep 0 r.
Proof.
  induction a as [|c a IH]; [now destruct r |]. exact IH.
Qed.

Lemma concat_cons (sep x : string) (l : list string) :
  l <> [] -> String.concat sep (x :: l) = x ++ sep ++ String.concat sep l.
Proof. destruct l; [contradiction | reflexivity]. Qed.

Lemma concat_split_upto (sep : string) (n : nat) :
  sep <> EmptyString ->
  forall s, String.length s <= n -> String.concat sep (split sep s) = s.
Proof.
  intros Hsep. unfold split.
  induction n as [|n IH]; intros s Hn.
  - destruct s; [reflexivity | simpl in Hn; lia].
  - destruct s as [|c r]; [reflexivity |].
    rewrite splitFrom_cons.
    destruct (String.prefix sep (String c r)) eqn:Hp.
    + apply prefix_append in Hp. destruct Hp as [r' Hr'].
      destruct sep as [|c0 sep']; [contradiction |].
      simpl in Hr'. injection Hr' as -> ->.
      simpl String.length. rewrite ?Nat.sub_0_r. simpl Nat.sub.
      rewrite ?Nat.sub_0_r, splitFrom_skip.
      rewrite concat_cons by apply splitFrom_nonempty.
      rewrite IH.
      * reflexivity.
      * simpl in Hn. rewrite length_append in Hn. lia.
    + assert (Hr : String.length r <= n) by (simpl in Hn; lia).
      specialize (IH r Hr).
      destruct (splitFrom sep 0 r) as [|h t] eqn:E.
      * now apply splitFrom_nonempty in E.
      * destruct t as [|h' t'].
        -- simpl in *. now rewrite IH.
        -- rewrite (concat_cons sep (String c h)) by discriminate.
           rewrite concat_cons in IH by discriminate.
           rewrite <- IH. reflexivity.
Qed.

(** Joining the pieces with the separator gives the text back. *)
Lemma concat_split (sep s : string) :
  sep <> EmptyString -> String.concat sep (split sep s) = s.
Proof.
  intros Hsep. apply (concat_split_upto sep (String.length s) Hsep). lia.
Qed.

(** Every one of the texts joined is a part of the result. *)
Lemma concat_part (sep x : string) (l : list string) :
  In x l -> exists a b, String.concat sep l = a ++ x ++ b.
Proof.
  induction l as [|y l IH]; [contradiction |].
  intros [-> | Hin].
  - destruct l as [|z l].
    + exists EmptyString, EmptyString. simpl. now rewrite append_empty_r.
    + exists EmptyString, (sep ++ String.concat sep (z :: l)). reflexivity.
  - destruct (IH Hin) as (a & b & E).
    rewrite concat_cons by (intros ->; contradiction).
    exists (y ++ sep ++ a), b. rewrite E. now rewrite !append_assoc.
Qed.

Lemma split_piece_part (sep s x : string) :
  sep <> EmptyString -> In x (split sep s) -> exists a b, s = a ++ x ++ b.
Proof.
  intros Hsep Hin. destruct (concat_part sep x _ Hin) as (a & b & E).
  rewrite (concat_split sep s Hsep) in E. now exists a, b.
Qed.

(** The pieces cut at one code unit do not contain it. *)
Lemma split_piece_lacks (c : ascii) (s x : string) :
  In x (split (singleton c) s) -> includes x (singleton c) = false.
Proof.
  unfold split. revert x. induction s as [|a r IH]; intros x.
  - intros [<- | []]. reflexivity.
  - rewrite splitFrom_cons. unfold singleton at 1.
    simpl String.prefix. destruct (ascii_dec c a) as [->|Hne].
    + rewrite prefix_empty_l. simpl String.length.
      intros [<- | Hin]; [reflexivity | now apply IH].
    + destruct (splitFrom (singleton c) 0 r) as [|h t] eqn:E.
      * now apply splitFrom_nonempty in E.
      * intros [<- | Hin].
        -- cbn [includes]. unfold singleton at 1. simpl String.prefix.
           destruct (ascii_dec c a); [contradiction |].
           apply (IH h). now left.
        -- apply IH. now right.
Qed.

(** Cutting a text that ends in the separating code unit: one more, empty
    piece at the end. *)
Lemma split_snoc (c : ascii) (x : string) :
  split (singleton c) (x ++ singleton c)
  = (split (singleton c) x ++ [EmptyString])%list.
Proof.
  unfold split. induction x as [|a r IH].
  - simpl. destruct (ascii_dec c c); [reflexivity | contradiction].
  - simpl append. rewrite !splitFrom_cons.
    unfold singleton at 1 4. simpl String.prefix.
    destruct (ascii_dec c a) as [->|Hne].
    + rewrite !prefix_empty_l. simpl String.length. simpl Nat.sub.
      now rewrite IH.
    + rewrite IH.
      destruct (splitFrom (singleton c) 0 r) as [|h t] eqn:E.
      * now apply splitFrom_nonempty in E.
      * reflexivity.
Qed.

End SplitFacts.

(* ================================================================== *)
(** ** The generation service, further *)

Section ServiceMore.

Context {imports : Imports}.

Import Service.

Ltac run_with_client rt H :=
  let ai := fresh "ai" in
  let Hai := fresh "Hai" in
  destruct (getGenAIClient_present rt H) as [ai Hai];
  unfold bind, lift, tryCatch, generateContent, ret, throw, console_error;
  rewrite Hai.

Ltac run_without_client rt H :=
  unfold bind, lift; rewrite (getGenAIClient_missing rt H).

(** X1.  Without a credential, finalizing a script, listing trending
    topics, generating the SEO content, opening the script conversation and
    generating a video all fail with the error of the missing API key, and
    none of them has sent or logged anything. *)
Theorem operations_without_credential
    (rt : Runtime) (w : World)
    (finalScript sceneDuration : string) (numberOfScenes : option Z)
    (genres : list Genre) (finalJsonScript : string) (idea : Idea)
    (scriptPrompt : string)
    (chats_create : GoogleGenAI -> ScriptChat.ChatConfig -> ScriptChat.Chat)
    (backend : Video.Backend) (visualStyle musicMood : string) (fuel : nat) :
  hasCredential rt = false ->
  let missing := Error "API_KEY environment variable is not set." in
  finalizeScriptAsJson rt finalScript sceneDuration numberOfScenes w
    = (Thrown missing, w)
  /\ getTrendingTopics rt genres w = (Thrown missing, w)
  /\ generateSeoContent rt finalJsonScript idea w = (Thrown missing, w)
  /\ ScriptChat.startScriptChat scriptPrompt chats_create rt = Thrown missing
  /\ Video.generateVideoForIdea rt backend idea visualStyle musicMood fuel
     = Some (Thrown missing, []).
Proof.
  intros Hkey missing. repeat split.
  - unfold finalizeScriptAsJson. now run_without_client rt Hkey.
  - unfold getTrendingTopics. now run_without_client rt Hkey.
  - unfold generateSeoContent. now run_without_client rt Hkey.
  - unfold ScriptChat.startScriptChat.
    now rewrite (getGenAIClient_missing rt Hkey).
  - unfold Video.generateVideoForIdea.
    now rewrite (getGenAIClient_missing rt Hkey).
Qed.

(** X2.  With a credential, each of the four text operations sends exactly
    one request, the one made from its arguments, whatever the endpoint
    answers and whether the operation then succeeds or fails. *)
Theorem operations_send_one_request
    (rt : Runtime) (w : World)
    (g : Genre) (d : Duration)
    (finalScript sceneDuration : string) (numberOfScenes : option Z)
    (genres : list Genre) (finalJsonScript : string) (idea : Idea) :
  hasCredential rt = true ->
  network (snd (generateShortsIdeas rt g d w))
    = (network w ++ [ideasRequest g d])%list
  /\ network (snd (finalizeScriptAsJson rt finalScript sceneDuration
                     numberOfScenes w))
     = (network w
          ++ [finalizeRequest finalScript sceneDuration numberOfScenes])%list
  /\ network (snd (getTrendingTopics rt genres w))
     = (network w ++ [trendingRequest genres])%list
  /\ network (snd (generateSeoContent rt finalJsonScript idea w))
     = (network w ++ [seoRequest finalJsonScript idea])%list.
Proof.
  intros Hkey. repeat split.
  - unfold generateShortsIdeas. run_with_client rt Hkey.
    destruct (endpoint rt (ideasRequest g d)); reflexivity.
  - unfold finalizeScriptAsJson. run_with_client rt Hkey.
    destruct (endpoint rt (finalizeRequest _ _ _)); reflexivity.
  - unfold getTrendingTopics. run_with_client rt Hkey.
    destruct (endpoint rt (trendingRequest genres)) as [text|e];
      [|reflexivity].
    destruct (negb (Str.truthy (Str.trim text))); reflexivity.
  - unfold generateSeoContent. run_with_client rt Hkey.
    destruct (endpoint rt (seoRequest finalJsonScript idea)) as [text|e];
      [|reflexivity].
    destruct (Json.parse (Str.trim text)); reflexivity.
Qed.

(** X3.  When the request fails, each text operation logs the error it
    caught and throws its own fixed error instead: the error of the
    endpoint never reaches the caller. *)
Theorem operations_replace_endpoint_error
    (rt : Runtime) (w : World) (e : JsError)
    (g : Genre) (d : Duration)
    (finalScript sceneDuration : string) (numberOfScenes : option Z)
    (genres : list Genre) (finalJsonScript : string) (idea : Idea) :
  hasCredential rt = true ->
  (forall request, endpoint rt request = Thrown e) ->
  let after request label :=
    {| network := (network w ++ [request])%list;
       console := (console w ++ [(label, e)])%list |} in
  generateShortsIdeas rt g d w
    = (Thrown (Error "Failed to generate ideas from Gemini API."),
       after (ideasRequest g d) "Error calling Gemini API:")
  /\ finalizeScriptAsJson rt finalScript sceneDuration numberOfScenes w
     = (Thrown (Error "Failed to finalize script as JSON from Gemini API."),
        after (finalizeRequest finalScript sceneDuration numberOfScenes)
          "Error calling Gemini API for script finalization:")
  /\ getTrendingTopics rt genres w
     = (Thrown (Error "Failed to get trending topics from Gemini API."),
        after (trendingRequest genres)
          "Error calling Gemini API for trending topics:")
  /\ generateSeoContent rt finalJsonScript idea w
     = (Thrown (Error "Failed to generate SEO content from Gemini API."),
        after (seoRequest finalJsonScript idea)
          "Error calling Gemini API for SEO content generation:").
Proof.
  intros Hkey Hdown after. repeat split.
  - unfold generateShortsIdeas. run_with_client rt Hkey. now rewrite Hdown.
  - unfold finalizeScriptAsJson. run_with_client rt Hkey. now rewrite Hdown.
  - unfold getTrendingTopics. run_with_client rt Hkey. now rewrite Hdown.
  - unfold generateSeoContent. run_with_client rt Hkey. now rewrite Hdown.
Qed.

(** X4.  Answers are handed through unchecked: the idea listing is the
    response text as it came, blank or not; the SEO content is whatever
    JSON value the trimmed response text denotes, be it an object with the
    three fields or not. *)
Theorem operations_hand_through
    (rt : Runtime) (w : World) (g : Genre) (d : Duration)
    (finalJsonScript : string) (idea : Idea) (text : string) :
  hasCredential rt = true ->
  (forall request, endpoint rt request = Returned text) ->
  fst (generateShortsIdeas rt g d w) = Returned text
  /\ forall v, Json.parse (Str.trim text) = Returned v ->
               fst (generateSeoContent rt finalJsonScript idea w) = Returned v.
Proof.
  intros Hkey Hans. split.
  - unfold generateShortsIdeas. run_with_client rt Hkey. now rewrite Hans.
  - intros v Hv. unfold generateSeoContent. run_with_client rt Hkey.
    now rewrite Hans, Hv.
Qed.

(** *** The fence stripper *)

Lemma substringFrom_front (p r : string) :
  Str.substringFrom (String.length p) (p ++ r) = r.
Proof.
  unfold Str.substringFrom, Str.substring.
  rewrite StrFacts.length_append.
  rewrite Nat.min_l, Nat.max_r by lia.
  replace (String.length p + String.length r - String.length p)
    with (String.length r) by lia.
  induction p as [|c p IH]; simpl.
  - rewrite <- (StrFacts.append_empty_r r) at 2.
    apply StrFacts.stdlib_substring_0_append.
  - exact IH.
Qed.

(** X5.  A response that, once trimmed, is a json fence, a body and a
    closing fence is stripped to the trimmed body, whatever the body; so is
    a response with the opening fence only. *)
Theorem stripJsonFences_fenced (text body : string) :
  (Str.trim text = "```json" ++ body ++ "```" ->
   stripJsonFences text = Str.trim body)
  /\ (Str.trim text = "```json" ++ body ->
      Str.endsWith body "```" = false ->
      stripJsonFences text = Str.trim body).
Proof.
  split.
  - intros Htrim. unfold stripJsonFences. rewrite Htrim.
    replace (Str.startsWith ("```json" ++ body ++ "```") "```json") with true
      by (symmetry; apply (StrMore.prefix_refl_append "```json")).
    pose proof (substringFrom_front "```json" (body ++ "```")) as Hcut.
    change (String.length "```json") with 7 in Hcut. rewrite Hcut.
    rewrite StrFacts.endsWith_append.
    rewrite StrFacts.substring_front; [reflexivity |].
    rewrite StrFacts.length_append. simpl. lia.
  - intros Htrim Hopen. unfold stripJsonFences. rewrite Htrim.
    replace (Str.startsWith ("```json" ++ body) "```json") with true
      by (symmetry; apply (StrMore.prefix_refl_append "```json")).
    pose proof (substringFrom_front "```json" body) as Hcut.
    change (String.length "```json") with 7 in Hcut.
    rewrite Hcut, Hopen. reflexivity.
Qed.

(** X6.  Whatever the endpoint answers, a script that the finalize
    operation returns has no white space at either end, and it is a run of
    consecutive characters of the response text: nothing is added or
    changed inside. *)
Theorem finalizeScriptAsJson_result
    (rt : Runtime) (finalScript sceneDuration : string)
    (numberOfScenes : option Z) (w : World) (text script : string) :
  hasCredential rt = true ->
  endpoint rt (finalizeRequest finalScript sceneDuration numberOfScenes)
    = Returned text ->
  fst (finalizeScriptAsJson rt finalScript sceneDuration numberOfScenes w)
    = Returned script ->
  Str.noOuterWhiteSpace script = true
  /\ exists before after, text = before ++ script ++ after.
Proof.
  intros Hkey Hans Hrun.
  rewrite (finalizeScriptAsJson_answer _ _ _ _ _ _ Hkey Hans) in Hrun.
  injection Hrun as <-. split; [apply StrMore.trim_trimmed |].
  unfold stripJsonFences.
  set (t0 := Str.trim text).
  set (t1 := if Str.startsWith t0 "```json"
             then Str.substringFrom 7 t0 else t0).
  set (t2 := if Str.endsWith t1 "```"
             then Str.substring 0 (String.length t1 - 3) t1 else t1).
  destruct (StrMore.trim_part text) as (a0 & b0 & E0). fold t0 in E0.
  assert (E1 : exists a b, t0 = a ++ t1 ++ b).
  { unfold t1. destruct (Str.startsWith t0 "```json").
    - apply StrMore.substring_part.
    - exists EmptyString, EmptyString. simpl.
      now rewrite StrFacts.append_empty_r. }
  assert (E2 : exists a b, t1 = a ++ t2 ++ b).
  { unfold t2. destruct (Str.endsWith t1 "```").
    - apply StrMore.substring_part.
    - exists EmptyString, EmptyString. simpl.
      now rewrite StrFacts.append_empty_r. }
  destruct E1 as (a1 & b1 & E1). destruct E2 as (a2 & b2 & E2).
  destruct (StrMore.trim_part t2) as (a3 & b3 & E3).
  pose proof (StrMore.part_trans _ _ _ _ _ _ _ E0 E1) as F1.
  pose proof (StrMore.part_trans _ _ _ _ _ _ _ F1 E2) as F2.
  pose proof (StrMore.part_trans _ _ _ _ _ _ _ F2 E3) as F3.
  eexists. eexists. exact F3.
Qed.

(** X22.  Stripping twice: when the stripped text does not itself begin
    with a json fence or end with a fence, stripping it again changes
    nothing. *)
Theorem stripJsonFences_again (text : string) :
  Str.startsWith (stripJsonFences text) "```json" = false ->
  Str.endsWith (stripJsonFences text) "```" = false ->
  stripJsonFences (stripJsonFences text) = stripJsonFences text.
Proof.
  intros Hopen Hclose.
  assert (Hclean : Str.trim (stripJsonFences text) = stripJsonFences text).
  { apply StrFacts.trim_clean. apply StrMore.trim_trimmed. }
  unfold stripJsonFences at 1. rewrite Hclean, Hopen, Hclose. exact Hclean.
Qed.

(** *** Trending topics *)

Lemma Char_toLower_comma (c : ascii) :
  Char.toLower c = ","%char -> c = ","%char.
Proof.
  destruct c as [[] [] [] [] [] [] [] []]; intros H;
    first [reflexivity | discriminate H].
Qed.

Lemma includes_comma_toLowerCase (s : string) :
  Str.includes s "," = false -> Str.includes (Str.toLowerCase s) "," = false.
Proof.
  induction s as [|c r IH]; [trivial |].
  intros H. apply SplitFacts.includes_false_cons in H. destruct H as [Hp Hr].
  simpl Str.toLowerCase. cbn [Str.includes]. rewrite (IH Hr), orb_false_r.
  change "," with (Str.singleton ",") in *.
  rewrite SplitFacts.prefix_singleton_cons in *.
  destruct (Ascii.eqb "," (Char.toLower c)) eqn:E; [|reflexivity].
  apply Ascii.eqb_eq in E. symmetry in E. apply Char_toLower_comma in E.
  subst c. exact Hp.
Qed.

Lemma includes_false_part (a x b p : string) :
  Str.includes (a ++ x ++ b) p = false -> Str.includes x p = false.
Proof.
  intros H. destruct (Str.includes x p) eqn:E; [|reflexivity].
  now rewrite (StrMore.includes_part a x b p E) in H.
Qed.

(** X7.  The topics that the trending operation returns for a response
    that is not blank: there is at least one; each is in lower case, has no
    white space at either end and contains no comma. *)
Theorem getTrendingTopics_topics
    (rt : Runtime) (genres : list Genre) (w : World) (text : string)
    (topics : list string) :
  hasCredential rt = true ->
  endpoint rt (trendingRequest genres) = Returned text ->
  Str.trim text <> EmptyString ->
  fst (getTrendingTopics rt genres w) = Returned topics ->
  topics <> []
  /\ forall topic, In topic topics ->
       Str.toLowerCase topic = topic
       /\ Str.noOuterWhiteSpace topic = true
       /\ Str.includes topic "," = false.
Proof.
  intros Hkey Hans Hblank Hrun.
  unfold getTrendingTopics in Hrun. revert Hrun. run_with_client rt Hkey.
  rewrite Hans.
  replace (negb (Str.truthy (Str.trim text))) with false
    by (destruct (Str.trim text); [contradiction | reflexivity]).
  cbn [fst]. intros [= <-]. split.
  - unfold Str.split.
    destruct (Str.splitFrom "," 0 (Str.trim text)) eqn:E; [|discriminate].
    now apply StrFacts.splitFrom_nonempty in E.
  - intros topic Hin. apply in_map_iff in Hin.
    destruct Hin as (piece & <- & Hpiece).
    split; [apply StrMore.toLowerCase_idempotent |]. split.
    + rewrite StrMore.noOuterWhiteSpace_toLowerCase.
      apply StrMore.trim_trimmed.
    + apply includes_comma_toLowerCase.
      destruct (StrMore.trim_part piece) as (a & b & E).
      apply (includes_false_part a _ b). rewrite <- E.
      exact (SplitFacts.split_piece_lacks "," _ _ Hpiece).
Qed.

End ServiceMore.

(* ================================================================== *)
(** ** The video job *)

Section VideoProperties.

Context {imports : Imports}.

Import Service Video.

Variable rt : Runtime.
Variable backend : Backend.

(** The bound of the model does not show in a result: more fuel gives the
    same one. *)
Lemma poll_more_fuel (fuel extra k : nat) (operation : Operation)
    (log : list Event) (result : answer Operation * list Event) :
  poll backend fuel k operation log = Some result ->
  poll backend (fuel + extra) k operation log = Some result.
Proof.
  revert k operation log. induction fuel as [|fuel IH]; intros k op log.
  - simpl. destruct (done op) eqn:E; [|discriminate].
    intros H. destruct extra; simpl; now rewrite E.
  - cbn [poll Nat.add]. destruct (done op); [trivial |].
    destruct (getVideosOperation backend k); [apply IH | trivial].
Qed.

(** Polling through a run of pending statuses up to the first finished
    one. *)
Lemma poll_through (pending : list Operation) :
  forall (fuel k : nat) (operation final : Operation) (log : list Event),
    done operation = false ->
    (forall o, In o pending -> done o = false) ->
    done final = true ->
    (forall j o, nth_error (pending ++ [final]) j = Some o ->
                 getVideosOperation backend (k + j) = Answered o) ->
    List.length pending < fuel ->
    poll backend fuel k operation log
    = Some (Answered final, (log ++ rounds (S (List.length pending)))%list).
Proof.
  induction pending as [|p ps IH];
    intros fuel k op final log Hop Hpending Hfinal Hanswers Hfuel.
  - destruct fuel as [|fuel]; [simpl in Hfuel; lia |].
    cbn [poll]. rewrite Hop.
    pose proof (Hanswers 0 final eq_refl) as H0.
    rewrite Nat.add_0_r in H0. rewrite H0.
    destruct fuel; cbn [poll]; now rewrite Hfinal.
  - destruct fuel as [|fuel]; [simpl in Hfuel; lia |].
    cbn [poll]. rewrite Hop.
    pose proof (Hanswers 0 p eq_refl) as H0.
    rewrite Nat.add_0_r in H0. rewrite H0.
    rewrite (IH fuel (S k) p final).
    + cbn [List.length]. rewrite <- app_assoc.
      change ([Slept 10000; Polled] ++ rounds (S (List.length ps)))%list
        with (rounds (S (S (List.length ps)))).
      reflexivity.
    + apply Hpending. now left.
    + intros o Ho. apply Hpending. now right.
    + exact Hfinal.
    + intros j o Hj. replace (S k + j) with (k + S j) by lia.
      apply Hanswers. exact Hj.
    + simpl in Hfuel. lia.
Qed.

Lemma poll_statuses (pending : list Operation) (final : Operation)
    (fuel : nat) (log : list Event) :
  (forall o, In o pending -> done o = false) ->
  done final = true ->
  (forall j o, nth_error (tl (pending ++ [final])) j = Some o ->
               getVideosOperation backend j = Answered o) ->
  List.length pending <= fuel ->
  poll backend fuel 0 (hd final (pending ++ [final])) log
  = Some (Answered final, (log ++ rounds (List.length pending))%list).
Proof.
  intros Hpending Hfinal Hanswers Hfuel.
  destruct pending as [|p ps].
  - simpl. rewrite app_nil_r.
    destruct fuel; cbn [poll]; now rewrite Hfinal.
  - cbn [hd app tl List.length] in *.
    apply poll_through.
    + apply Hpending. now left.
    + intros o Ho. apply Hpending. now right.
    + exact Hfinal.
    + intros j o Hj. apply Hanswers. exact Hj.
    + lia.
Qed.

(** A job that never reports done keeps the loop going. *)
Lemma poll_stuck (fuel : nat) :
  forall (k : nat) (operation : Operation) (log : list Event),
    done operation = false ->
    (forall j, exists o,
        getVideosOperation backend j = Answered o /\ done o = false) ->
    poll backend fuel k operation log = None.
Proof.
  induction fuel as [|fuel IH]; intros k op log Hop Hstuck.
  - simpl. now rewrite Hop.
  - cbn [poll]. rewrite Hop.
    destruct (Hstuck k) as (o & -> & Ho). now apply IH.
Qed.

(** Polling through pending statuses up to a status request that is
    rejected. *)
Lemma poll_rejected (later : list Operation) :
  forall (fuel k : nat) (operation : Operation) (r : Rejection)
         (log : list Event),
    done operation = false ->
    (forall o, In o later -> done o = false) ->
    (forall j o, nth_error later j = Some o ->
                 getVideosOperation backend (k + j) = Answered o) ->
    getVideosOperation backend (k + List.length later) = Rejected r ->
    List.length later < fuel ->
    poll backend fuel k operation log
    = Some (Rejected r, (log ++ rounds (S (List.length later)))%list).
Proof.
  induction later as [|p ps IH];
    intros fuel k op r log Hop Hlater Hanswers Hreject Hfuel.
  - destruct fuel as [|fuel]; [simpl in Hfuel; lia |].
    cbn [poll]. rewrite Hop.
    cbn [List.length] in Hreject. rewrite Nat.add_0_r in Hreject.
    now rewrite Hreject.
  - destruct fuel as [|fuel]; [simpl in Hfuel; lia |].
    cbn [poll]. rewrite Hop.
    pose proof (Hanswers 0 p eq_refl) as H0.
    rewrite Nat.add_0_r in H0. rewrite H0.
    rewrite (IH fuel (S k) p r).
    + cbn [List.length]. rewrite <- app_assoc.
      change ([Slept 10000; Polled] ++ rounds (S (List.length ps)))%list
        with (rounds (S (S (List.length ps)))).
      reflexivity.
    + apply Hlater. now left.
    + intros o Ho. apply Hlater. now right.
    + intros j o Hj. replace (S k + j) with (k + S j) by lia.
      apply Hanswers. exact Hj.
    + cbn [List.length] in Hreject.
      now replace (S k + List.length ps) with (k + S (List.length ps)) by lia.
    + simpl in Hfuel. lia.
Qed.

(** Once the job is finished, what remains is the download. *)
Lemma generateVideoForIdea_finished
    (idea : Idea) (visualStyle musicMood : string)
    (pending : list Operation) (final : Operation) (fuel : nat) :
  hasCredential rt = true ->
  generateVideos backend (videoRequest idea visualStyle musicMood)
    = Answered (hd final (pending ++ [final])) ->
  (forall o, In o pending -> done o = false) ->
  done final = true ->
  (forall j o, nth_error (tl (pending ++ [final])) j = Some o ->
               getVideosOperation backend j = Answered o) ->
  List.length pending <= fuel ->
  generateVideoForIdea rt backend idea visualStyle musicMood fuel
  = match download rt backend final
            (Submitted (videoRequest idea visualStyle musicMood)
               :: rounds (List.length pending)) with
    | (Answered url, log) => Some (Returned url, log)
    | (Rejected r, log) =>
        Some (Thrown (rethrown r),
              (log ++ [Logged "Error calling Veo API for video generation:"
                         r])%list)
    end.
Proof.
  intros Hkey Hsubmit Hpending Hfinal Hanswers Hfuel.
  unfold generateVideoForIdea.
  destruct (getGenAIClient_present rt Hkey) as [ai ->].
  rewrite Hsubmit.
  rewrite (poll_statuses pending final fuel _ Hpending Hfinal Hanswers Hfuel).
  cbn [app].
  destruct (download rt backend final
              (Submitted (videoRequest idea visualStyle musicMood)
                 :: rounds (List.length pending))) as [[url|r] log];
    reflexivity.
Qed.

(** X8.  A job that reports the statuses [pending], none of them done,
    and then a finished status with a link, followed by a download that
    succeeds: the operation sleeps ten seconds before each status request,
    makes exactly as many status requests as there were pending statuses,
    fetches the link with the key appended, and returns the object URL of
    the body. *)
Theorem generateVideoForIdea_completes
    (idea : Idea) (visualStyle musicMood : string)
    (pending : list Operation) (final : Operation) (fuel : nat)
    (key link body : string) (response : FetchResponse) :
  API_KEY rt = Some key -> Str.truthy key = true ->
  generateVideos backend (videoRequest idea visualStyle musicMood)
    = Answered (hd final (pending ++ [final])) ->
  (forall o, In o pending -> done o = false) ->
  done final = true ->
  (forall j o, nth_error (tl (pending ++ [final])) j = Some o ->
               getVideosOperation backend j = Answered o) ->
  uri final = Some link -> Str.truthy link = true ->
  fetch backend (link ++ "&key=" ++ key) = Answered response ->
  ok response = true ->
  blob response = Answered body ->
  List.length pending <= fuel ->
  generateVideoForIdea rt backend idea visualStyle musicMood fuel
  = Some (Returned (createObjectURL backend body),
          (Submitted (videoRequest idea visualStyle musicMood)
             :: rounds (List.length pending)
             ++ [Fetched (link ++ "&key=" ++ key)])%list).
Proof.
  intros Hkey Htruthy Hsubmit Hpending Hfinal Hanswers Huri Hlink Hfetch Hok
    Hblob Hfuel.
  assert (Hcred : hasCredential rt = true).
  { unfold hasCredential. now rewrite Hkey. }
  rewrite (generateVideoForIdea_finished idea visualStyle musicMood
             pending final fuel Hcred Hsubmit Hpending Hfinal Hanswers Hfuel).
  unfold download.
  rewrite Huri, Hlink, Hkey, Htruthy. cbn [negb].
  rewrite Hfetch, Hok. cbn [negb]. rewrite Hblob. reflexivity.
Qed.

(** X9.  A job that is pending on submission and on every status request
    is waited for without end: whatever the number of rounds allowed, the
    operation has not returned. *)
Theorem generateVideoForIdea_waits
    (idea : Idea) (visualStyle musicMood : string) (first : Operation) :
  hasCredential rt = true ->
  generateVideos backend (videoRequest idea visualStyle musicMood)
    = Answered first ->
  done first = false ->
  (forall j, exists o,
      getVideosOperation backend j = Answered o /\ done o = false) ->
  forall fuel,
    generateVideoForIdea rt backend idea visualStyle musicMood fuel = None.
Proof.
  intros Hkey Hsubmit Hfirst Hstuck fuel.
  unfold generateVideoForIdea.
  destruct (getGenAIClient_present rt Hkey) as [ai ->].
  rewrite Hsubmit. now rewrite (poll_stuck fuel 0 first _ Hfirst Hstuck).
Qed.

(** X10.  A finished job without a link makes the operation fail with
    'Video generation succeeded but no download link was found.', before
    anything is fetched; a download that is answered but not ok makes it
    fail with 'Failed to download video: ' and the status text.  Both
    messages reach the caller as they are. *)
Theorem generateVideoForIdea_download_errors
    (idea : Idea) (visualStyle musicMood : string)
    (pending : list Operation) (final : Operation) (fuel : nat) :
  hasCredential rt = true ->
  generateVideos backend (videoRequest idea visualStyle musicMood)
    = Answered (hd final (pending ++ [final])) ->
  (forall o, In o pending -> done o = false) ->
  done final = true ->
  (forall j o, nth_error (tl (pending ++ [final])) j = Some o ->
               getVideosOperation backend j = Answered o) ->
  List.length pending <= fuel ->
  let request := videoRequest idea visualStyle musicMood in
  let label := "Error calling Veo API for video generation:" in
  ((uri final = None \/ uri final = Some EmptyString) ->
   let message :=
     "Video generation succeeded but no download link was found." in
   generateVideoForIdea rt backend idea visualStyle musicMood fuel
   = Some (Thrown (Error message),
           (Submitted request :: rounds (List.length pending)
              ++ [Logged label (WithError message)])%list))
  /\ (forall key link response,
        API_KEY rt = Some key ->
        uri final = Some link -> Str.truthy link = true ->
        fetch backend (link ++ "&key=" ++ key) = Answered response ->
        ok response = false ->
        let message := "Failed to download video: " ++ statusText response in
        generateVideoForIdea rt backend idea visualStyle musicMood fuel
        = Some (Thrown (Error message),
                (Submitted request :: rounds (List.length pending)
                   ++ [Fetched (link ++ "&key=" ++ key);
                       Logged label (WithError message)])%list)).
Proof.
  intros Hcred Hsubmit Hpending Hfinal Hanswers Hfuel request label.
  pose proof (generateVideoForIdea_finished idea visualStyle musicMood
                pending final fuel Hcred Hsubmit Hpending Hfinal Hanswers
                Hfuel) as Hrun.
  split.
  - intros Hlink message. rewrite Hrun. unfold download.
    destruct Hlink as [-> | ->]; reflexivity.
  - intros key link response Hkey Huri Hlink Hfetch Hok message.
    rewrite Hrun. unfold download.
    assert (Htruthy : Str.truthy key = true).
    { unfold hasCredential in Hcred. now rewrite Hkey in Hcred. }
    rewrite Huri, Hlink, Hkey, Htruthy. cbn [negb].
    rewrite Hfetch, Hok. cbn [negb].
    unfold rethrown. rewrite <- app_assoc. reflexivity.
Qed.

(** X11.  A rejection by the video endpoint ends the operation at once:
    at the submission nothing is polled; at a status request, after the
    pending statuses before it, nothing more is polled; and nothing is
    fetched.  A rejection with an [Error] reaches the caller with the
    message it came with, any other thrown value becomes 'Failed to
    generate video from Veo API due to an unknown error.'; the caught value
    is logged. *)
Theorem generateVideoForIdea_rejected
    (idea : Idea) (visualStyle musicMood : string) (r : Rejection)
    (first : Operation) (later : list Operation) (fuel : nat) :
  hasCredential rt = true ->
  let request := videoRequest idea visualStyle musicMood in
  let label := "Error calling Veo API for video generation:" in
  let thrown :=
    match r with
    | WithError message => Error message
    | WithOther =>
        Error "Failed to generate video from Veo API due to an unknown error."
    end in
  (generateVideos backend request = Rejected r ->
   generateVideoForIdea rt backend idea visualStyle musicMood fuel
   = Some (Thrown thrown, [Submitted request; Logged label r]))
  /\ (generateVideos backend request = Answered first ->
      (forall o, In o (first :: later) -> done o = false) ->
      (forall j o, nth_error later j = Some o ->
                   getVideosOperation backend j = Answered o) ->
      getVideosOperation backend (List.length later) = Rejected r ->
      List.length later < fuel ->
      generateVideoForIdea rt backend idea visualStyle musicMood fuel
      = Some (Thrown thrown,
              (Submitted request :: rounds (S (List.length later))
                 ++ [Logged label r])%list)).
Proof.
  intros Hkey request label thrown. split.
  - intros Hsubmit. unfold generateVideoForIdea.
    destruct (getGenAIClient_present rt Hkey) as [ai ->].
    fold request. rewrite Hsubmit. reflexivity.
  - intros Hsubmit Hpending Hanswers Hreject Hfuel.
    unfold generateVideoForIdea.
    destruct (getGenAIClient_present rt Hkey) as [ai ->].
    fold request. rewrite Hsubmit.
    rewrite (poll_rejected later fuel 0 first r).
    + reflexivity.
    + apply Hpending. now left.
    + intros o Ho. apply Hpending. now right.
    + exact Hanswers.
    + exact Hreject.
    + exact Hfuel.
Qed.

End VideoProperties.

(* ================================================================== *)
(** ** The script generator modal, further *)

Section DraftMore.

Import Str StrFacts StrMore SplitFacts Regex ScriptGeneratorModal.

(** *** Array helpers *)

Lemma In_firstn {A : Type} (n : nat) (l : list A) (x : A) :
  In x (firstn n l) -> In x l.
Proof.
  intros H. rewrite <- (firstn_skipn n l). apply in_or_app. now left.
Qed.

Lemma In_skipn {A : Type} (n : nat) (l : list A) (x : A) :
  In x (skipn n l) -> In x l.
Proof.
  intros H. rewrite <- (firstn_skipn n l). apply in_or_app. now right.
Qed.

Lemma In_slice {A : Type} (a b : Z) (l : list A) (x : A) :
  In x (Arr.slice a b l) -> In x l.
Proof. unfold Arr.slice. intros H. now apply In_firstn, In_skipn in H. Qed.

Lemma sliceFrom_1 {A : Type} (x : A) (l : list A) :
  Arr.sliceFrom 1 (x :: l) = l.
Proof.
  unfold Arr.sliceFrom, Arr.slice, Arr.sliceIndex.
  replace (Z.of_nat (List.length (x :: l)) <? 0)%Z with false
    by (symmetry; apply Z.ltb_ge; lia).
  cbn [Z.ltb Z.compare]. rewrite Nat2Z.id, Nat.min_id.
  change (Z.to_nat 1) with 1.
  replace (Nat.min 1 (List.length (x :: l))) with 1 by (simpl; lia).
  cbn [skipn List.length]. rewrite Nat.sub_succ, Nat.sub_0_r.
  apply firstn_all.
Qed.

Lemma slice_inner {A : Type} (x y : A) (l : list A) :
  Arr.slice 1 (-1) (x :: l ++ [y]) = l.
Proof.
  unfold Arr.slice, Arr.sliceIndex.
  cbn [Z.ltb Z.compare]. change (Z.to_nat 1) with 1.
  assert (Hlen : List.length (x :: l ++ [y]) = S (S (List.length l))).
  { simpl. rewrite length_app. simpl. lia. }
  rewrite Hlen.
  replace (Nat.min 1 (S (S (List.length l)))) with 1 by lia.
  replace (Z.to_nat (Z.max (Z.of_nat (S (S (List.length l))) + -1) 0))
    with (S (List.length l)) by lia.
  cbn [skipn]. rewrite Nat.sub_succ, Nat.sub_0_r.
  rewrite firstn_app, firstn_all, Nat.sub_diag. simpl. apply app_nil_r.
Qed.

Lemma In_somes {A : Type} (x : A) (l : list (option A)) :
  In x (Arr.somes l) -> In (Some x) l.
Proof.
  induction l as [|[y|] l IH]; simpl; [trivial | |].
  - intros [-> | H]; [now left | right; now apply IH].
  - intros H. right. now apply IH.
Qed.

(** *** Cutting the draft *)

Lemma nth_0_hd {A : Type} (l : list A) (d : A) : nth 0 l d = hd d l.
Proof. now destruct l. Qed.

Lemma separator_not_empty : separator <> EmptyString.
Proof. discriminate. Qed.

(** X12.  A draft without a line of three dashes, or without the words
    'suggested narration styles' in any letter case, offers no suggestion
    at all, and the whole draft is the scene table. *)
Theorem splitDraft_plain (script : string) :
  script <> EmptyString ->
  includes script separator = false
  \/ includes (toLowerCase script) "suggested narration styles" = false ->
  narrationSuggestions (Some script) = None
  /\ parsedSuggestions (narrationSuggestions (Some script)) = []
  /\ scriptTable (Some script) = Some script.
Proof.
  intros Hne Hplain.
  assert (Hsplit : splitDraft (Some script) = (None, Some script)).
  { unfold splitDraft.
    replace (truthy script) with true
      by (destruct script; [contradiction | reflexivity]).
    cbn [negb]. destruct Hplain as [Hsep | Hhead].
    - rewrite (split_whole separator script Hsep). reflexivity.
    - rewrite nth_0_hd.
      destruct (split_head_prefix separator script) as [rest Hrest].
      destruct (includes (toLowerCase (hd EmptyString (split separator script)))
                  "suggested narration styles") eqn:E.
      + rewrite Hrest, toLowerCase_append in Hhead.
        now rewrite (includes_append_l _ _ _ E) in Hhead.
      + now rewrite andb_false_r. }
  unfold narrationSuggestions, scriptTable. rewrite Hsplit. now repeat split.
Qed.

(** X13.  When the draft offers suggestions, nothing of it is lost: the
    draft is the suggestion block, the line of three dashes and a rest, and
    the scene table is that rest, trimmed.  The suggestion block contains
    the words 'suggested narration styles' in some letter case. *)
Theorem splitDraft_parts (script block table : string) :
  splitDraft (Some script) = (Some block, Some table) ->
  includes (toLowerCase block) "suggested narration styles" = true
  /\ exists rest, script = block ++ separator ++ rest /\ table = trim rest.
Proof.
  unfold splitDraft.
  destruct (negb (truthy script)); [discriminate |].
  pose proof (concat_split separator script separator_not_empty) as Hjoin.
  destruct (split separator script) as [|first others] eqn:E.
  - discriminate.
  - cbn [nth List.length].
    destruct others as [|second others]; [discriminate |].
    change (1 <? S (S (List.length others)))%nat with true. cbn [andb].
    destruct (includes (toLowerCase first) "suggested narration styles")
      eqn:Hhead; [|discriminate].
    rewrite sliceFrom_1. intros [= <- <-]. split; [exact Hhead |].
    exists (String.concat separator (second :: others)).
    split; [|reflexivity].
    rewrite <- Hjoin. apply concat_cons. discriminate.
Qed.

(** *** Suggestions *)

Lemma trimmedOr_trimmed (group : option string) (fallback : string) :
  noOuterWhiteSpace fallback = true ->
  noOuterWhiteSpace (trimmedOr group fallback) = true.
Proof.
  intros H. unfold trimmedOr. destruct group as [text|]; [|exact H].
  destruct (truthy (trim text)); [apply trim_trimmed | exact H].
Qed.

Lemma trimmedOr_not_empty (group : option string) (fallback : string) :
  fallback <> EmptyString -> trimmedOr group fallback <> EmptyString.
Proof.
  intros H. unfold trimmedOr. destruct group as [text|]; [|exact H].
  destruct (trim text) eqn:E; simpl; [exact H | discriminate].
Qed.

(** X14.  Every suggestion that the parser yields has a name that is not
    empty (a name that would be empty is replaced by 'Unnamed Style'), and
    its name, description and justification have no white space at either
    end. *)
Theorem parsedSuggestions_fields (block : option string) (sg : Suggestion) :
  In sg (parsedSuggestions block) ->
  name sg <> EmptyString
  /\ noOuterWhiteSpace (name sg) = true
  /\ noOuterWhiteSpace (description sg) = true
  /\ noOuterWhiteSpace (justification sg) = true.
Proof.
  unfold parsedSuggestions. destruct block as [text|]; [|contradiction].
  destruct (negb (truthy text)); [contradiction |].
  intros Hin. apply In_somes in Hin. apply in_map_iff in Hin.
  destruct Hin as (line & Hline & _).
  destruct (matchRegex suggestionPattern line) as [m|]; [|discriminate].
  injection Hline as <-. cbn [name description justification].
  split; [apply trimmedOr_not_empty; discriminate |].
  repeat split; apply trimmedOr_trimmed; reflexivity.
Qed.

(** *** The table *)

Lemma rowCells_from_split (line cell : string) :
  In cell (rowCells line) ->
  exists piece, In piece (split "|" line) /\ cell = trim piece.
Proof.
  unfold rowCells. intros H.
  assert (Hcells : In cell (map trim (split "|" line))).
  { destruct (Arr.atIs _ 0 EmptyString && Arr.atIs _ _ EmptyString);
      [now apply In_slice in H | exact H]. }
  apply in_map_iff in Hcells. destruct Hcells as (piece & <- & Hp).
  now exists piece.
Qed.

Lemma cell_single_paragraph (line cell : string) :
  includes line nl = false -> In cell (rowCells line) ->
  split nl cell = [cell] /\ noOuterWhiteSpace cell = true.
Proof.
  intros Hline Hcell.
  destruct (rowCells_from_split line cell Hcell) as (piece & Hpiece & ->).
  split; [|apply trim_trimmed].
  apply split_whole.
  destruct (split_piece_part "|" line piece) as (a & b & E);
    [discriminate | exact Hpiece |].
  destruct (trim_part piece) as (a' & b' & E').
  apply (includes_false_part a' _ b'). rewrite <- E'.
  apply (includes_false_part a _ b). now rewrite <- E.
Qed.

(** X15.  The shape of a rendered table, whatever the draft: no head cell
    is empty or has white space at either end; every body row has at least
    two cells; and every cell is shown as exactly one paragraph, its text
    without white space at either end. *)
Theorem renderScriptTable_shape
    (markdown : string) (header : list string)
    (rows : list (list (list string))) :
  renderScriptTable markdown = Returned (Table header rows) ->
  (forall h, In h header -> h <> EmptyString /\ noOuterWhiteSpace h = true)
  /\ forall row, In row rows ->
       2 <= List.length row
       /\ forall paragraphs, In paragraphs row ->
            exists cell, paragraphs = [cell] /\ noOuterWhiteSpace cell = true.
Proof.
  unfold renderScriptTable.
  destruct (find isHeaderLine (split nl (trim markdown))) as [headerLine|];
    [|discriminate].
  intros [= <- <-]. split.
  - intros h Hh. apply filter_In in Hh. destruct Hh as [Hh Ht].
    apply in_map_iff in Hh. destruct Hh as (piece & <- & _).
    split; [|apply trim_trimmed].
    intros E. rewrite E in Ht. discriminate.
  - intros row Hrow. apply in_map_iff in Hrow.
    destruct Hrow as (cells & <- & Hcells).
    apply filter_In in Hcells. destruct Hcells as [Hcells Hlen].
    apply Nat.ltb_lt in Hlen. rewrite length_map. split; [lia |].
    apply in_map_iff in Hcells. destruct Hcells as (line & <- & Hline).
    unfold Arr.sliceFrom in Hline. apply In_slice in Hline.
    apply (split_piece_lacks Char.LF) in Hline.
    intros paragraphs Hp. apply in_map_iff in Hp.
    destruct Hp as (cell & <- & Hcell).
    destruct (cell_single_paragraph line cell Hline Hcell) as [Hone Htrim].
    exists cell. now split.
Qed.

Lemma trimEnd_append (x y : string) :
  trimEnd y <> EmptyString -> trimEnd (x ++ y) = x ++ trimEnd y.
Proof.
  intros Hy. induction x as [|c r IH]; [reflexivity |].
  simpl append. cbn [trimEnd]. rewrite IH.
  destruct (r ++ trimEnd y) eqn:E.
  - destruct r; [simpl in E; contradiction | discriminate].
  - now rewrite andb_false_r.
Qed.

Lemma sliceFrom_2 {A : Type} (x y : A) (l : list A) :
  Arr.sliceFrom (0 + 2) (x :: y :: l) = l.
Proof.
  unfold Arr.sliceFrom, Arr.slice, Arr.sliceIndex.
  replace (Z.of_nat (List.length (x :: y :: l)) <? 0)%Z with false
    by (symmetry; apply Z.ltb_ge; lia).
  cbn [Z.add Z.ltb Z.compare]. rewrite Nat2Z.id, Nat.min_id.
  change (Z.to_nat 2) with 2.
  replace (Nat.min 2 (List.length (x :: y :: l))) with 2 by (simpl; lia).
  cbn [skipn List.length].
  replace (S (S (List.length l)) - 2) with (List.length l) by lia.
  apply firstn_all.
Qed.

(** X23.  A block that starts with its header row: the line after the
    header is passed over whatever it holds, and each line after that
    becomes a body row when it has at least two cells; white space before
    the header and after the last line does not count. *)
Theorem renderScriptTable_block (header second body : string) :
  includes header "|" = true ->
  includes (toLowerCase header) "timestamp" = true ->
  includes header nl = false ->
  includes second nl = false ->
  trimEnd body <> EmptyString ->
  renderScriptTable (header ++ nl ++ second ++ nl ++ body)
  = Returned
      (Table (filter truthy (map trim (split "|" (trimStart header))))
             (map (map (split nl))
                (filter (fun row => (1 <? List.length row)%nat)
                   (map rowCells (split nl (trimEnd body)))))).
Proof.
  intros Hpipe Hstamp Hh Hsecond Hbody.
  assert (Hpipe' : includes (trimStart header) "|" = true).
  { now rewrite includes_trimStart. }
  assert (Hstamp' :
    includes (toLowerCase (trimStart header)) "timestamp" = true).
  { rewrite toLowerCase_trimStart. now rewrite includes_trimStart. }
  assert (Hh' : includes (trimStart header) nl = false).
  { now apply includes_trimStart_false. }
  assert (Htrim : trim (header ++ nl ++ second ++ nl ++ body)
                  = trimStart header ++ nl ++ second ++ nl ++ trimEnd body).
  { unfold trim.
    rewrite (trimStart_append _ _ (includes_nonempty _ _ _ Hpipe')).
    replace (trimStart header ++ nl ++ second ++ nl ++ body)
      with ((trimStart header ++ nl ++ second ++ nl) ++ body)
      by (now rewrite !append_assoc).
    rewrite (trimEnd_append _ _ Hbody). now rewrite !append_assoc. }
  unfold renderScriptTable. rewrite Htrim.
  rewrite (split_nl _ _ Hh'), (split_nl _ _ Hsecond).
  cbn [find]. unfold isHeaderLine at 1. rewrite Hpipe', Hstamp'.
  cbn [andb Arr.indexOf]. rewrite String.eqb_refl.
  rewrite sliceFrom_2. reflexivity.
Qed.

Lemma atIs_last (a : string) (l : list string) (b : string) :
  Arr.atIs (a :: l ++ [b]) (Z.of_nat (List.length (a :: l ++ [b])) - 1) b
  = true.
Proof.
  unfold Arr.atIs.
  assert (Hlen : List.length (a :: l ++ [b]) = S (S (List.length l))).
  { simpl. rewrite length_app. simpl. lia. }
  rewrite Hlen.
  replace (Z.of_nat (S (S (List.length l))) - 1 <? 0)%Z with false
    by (symmetry; apply Z.ltb_ge; lia).
  replace (Z.to_nat (Z.of_nat (S (S (List.length l))) - 1))
    with (S (List.length l)) by lia.
  cbn [nth_error]. rewrite nth_error_app2, Nat.sub_diag by lia.
  simpl. apply String.eqb_refl.
Qed.

(** X16.  A table line written with a pipe at both ends has the cells
    between the outer pipes, each trimmed: the two empty cells that the
    outer pipes make are dropped. *)
Theorem rowCells_outer_pipes (inner : string) :
  rowCells ("|" ++ inner ++ "|") = map trim (split "|" inner).
Proof.
  unfold rowCells.
  assert (Hsplit : split "|" ("|" ++ inner ++ "|")
                   = EmptyString :: (split "|" inner ++ [EmptyString])%list).
  { unfold split. change ("|" ++ inner ++ "|") with (String "|" (inner ++ "|")).
    rewrite splitFrom_cons.
    change "|" with (singleton "|") at 1.
    rewrite prefix_singleton_cons, Ascii.eqb_refl.
    simpl String.length. simpl Nat.sub.
    exact (f_equal (cons EmptyString) (split_snoc "|" inner)). }
  rewrite Hsplit. cbn [map]. rewrite map_app. cbn [map].
  change (trim EmptyString) with EmptyString.
  rewrite atIs_last. cbn [Arr.atIs Z.ltb Z.compare Z.to_nat nth_error].
  cbn [String.eqb andb]. apply slice_inner.
Qed.

End DraftMore.

(* ================================================================== *)
(** ** From the finalize operation to the two modals *)

Section Pipeline.

Context {imports : Imports}.

Import Service.

(** X19.  The finalize operation does not look into the script it
    returns.  When the stripped response is not JSON, the operation still
    returns it; the script modal then shows it verbatim, while the history
    modal, given an item with that script, throws the error of the parser.
    When it is JSON, the history modal shows the value, pretty-printed
    with an indentation of two. *)
Theorem finalized_script_in_the_modals
    (rt : Runtime) (finalScript sceneDuration : string)
    (numberOfScenes : option Z) (w : World) (text : string)
    (idea : Idea) (seo : HistoryDetailModal.SeoContent) :
  hasCredential rt = true ->
  endpoint rt (finalizeRequest finalScript sceneDuration numberOfScenes)
    = Returned text ->
  let script := stripJsonFences text in
  let item :=
    {| HistoryDetailModal.idea := idea;
       HistoryDetailModal.jsonScript := script;
       HistoryDetailModal.seoContent := seo |} in
  fst (finalizeScriptAsJson rt finalScript sceneDuration numberOfScenes w)
    = Returned script
  /\ (forall e, Json.parse script = Thrown e ->
        ScriptGeneratorModal.renderFinalJson script
          = Returned (ScriptGeneratorModal.Pre script)
        /\ HistoryDetailModal.render (Some item) = Thrown e)
  /\ (forall v, Json.parse script = Returned v ->
        HistoryDetailModal.render (Some item)
        = Returned
            (Some {| HistoryDetailModal.heading := title idea;
                     HistoryDetailModal.json :=
                       HistoryDetailModal.PrettyJson v 2;
                     HistoryDetailModal.seo := seo |})).
Proof.
  intros Hkey Hans script item. split; [|split].
  - exact (finalizeScriptAsJson_answer _ _ _ _ _ _ Hkey Hans).
  - intros e He. split.
    + unfold ScriptGeneratorModal.renderFinalJson. now rewrite He.
    + unfold HistoryDetailModal.render, HistoryDetailModal.renderJson.
      cbn [HistoryDetailModal.jsonScript item]. now rewrite He.
  - intros v Hv.
    unfold HistoryDetailModal.render, HistoryDetailModal.renderJson.
    cbn [HistoryDetailModal.jsonScript item]. now rewrite Hv.
Qed.

(** *** The script conversation *)

Import ScriptChat.

(** X20.  Drafting and revising send exactly one message to the
    conversation they are given, without asking for a credential.  The
    stream that the conversation answers with is returned as it is; when
    the conversation fails, the error is logged and replaced by the fixed
    error of the operation. *)
Theorem script_streams
    (chat : Chat) (idea : Idea) (sceneDuration : string) (noNarration : bool)
    (language suggestion : string) (style : option string) (w : World) :
  let first := initialScriptPrompt idea sceneDuration noNarration language in
  let again :=
    regeneratePrompt sceneDuration noNarration language suggestion style in
  let sent message :=
    {| network := (network w ++ [chatRequest chat message])%list;
       console := console w |} in
  let failed message label e :=
    {| network := (network w ++ [chatRequest chat message])%list;
       console := (console w ++ [(label, e)])%list |} in
  (forall chunks, answerTo chat first = Returned chunks ->
     generateInitialScriptStream chat idea sceneDuration noNarration language w
     = (Returned chunks, sent first))
  /\ (forall e, answerTo chat first = Thrown e ->
        generateInitialScriptStream chat idea sceneDuration noNarration
          language w
        = (Thrown (Error "Failed to generate initial script from Gemini API."),
           failed first
             "Error calling Gemini API for initial script generation:" e))
  /\ (forall chunks, answerTo chat again = Returned chunks ->
        regenerateScriptStream chat sceneDuration noNarration language
          suggestion style w
        = (Returned chunks, sent again))
  /\ (forall e, answerTo chat again = Thrown e ->
        regenerateScriptStream chat sceneDuration noNarration language
          suggestion style w
        = (Thrown (Error "Failed to regenerate script from Gemini API."),
           failed again
             "Error calling Gemini API for script regeneration:" e)).
Proof.
  intros first again sent failed.
  unfold generateInitialScriptStream, regenerateScriptStream,
    tryCatch, bind, sendMessageStream, ret, throw, console_error.
  fold first again.
  repeat split; intros x Hx; rewrite Hx; reflexivity.
Qed.

Ltac find_part :=
  first [ apply StrMore.includes_self_prefix
        | apply StrMore.includes_append_r; find_part
        | apply StrFacts.includes_append_l; find_part ].

(** X21.  The messages carry what they are given as it is.  The first
    message contains the title, the concept, the story arc and the genre of
    the idea, the language and the target duration; the message of a
    revision contains the suggestion between double quotes, the language
    and the target duration.  A style that is given and not empty is named
    in the revision between double quotes; a style that is absent or empty
    leaves the same message. *)
Theorem script_messages
    (idea : Idea) (sceneDuration : string) (noNarration : bool)
    (language suggestion style : string) (selected : option string) :
  let first := initialScriptPrompt idea sceneDuration noNarration language in
  let again chosen :=
    regeneratePrompt sceneDuration noNarration language suggestion chosen in
  (Str.includes first (title idea) = true
   /\ Str.includes first (concept idea) = true
   /\ Str.includes first (storyArc idea) = true
   /\ Str.includes first (genreText (genre idea)) = true
   /\ Str.includes first language = true
   /\ Str.includes first sceneDuration = true)
  /\ (Str.includes (again selected) (Str.dq ++ suggestion ++ Str.dq) = true
      /\ Str.includes (again selected) language = true
      /\ Str.includes (again selected) sceneDuration = true)
  /\ (style <> EmptyString ->
      Str.includes (again (Some style)) (Str.dq ++ style ++ Str.dq) = true)
  /\ again (Some EmptyString) = again None.
Proof.
  intros first again.
  assert (Hquoted : forall x rest : string,
            Str.dq ++ x ++ Str.dq ++ rest = (Str.dq ++ x ++ Str.dq) ++ rest).
  { intros x rest. now rewrite !StrFacts.append_assoc. }
  split; [|split; [|split]].
  - unfold first, initialScriptPrompt. repeat split; find_part.
  - unfold again, regeneratePrompt. repeat split; try find_part.
    rewrite Hquoted. find_part.
  - intros Hstyle. unfold again, regeneratePrompt, styleConstraint.
    replace (Str.truthy style) with true
      by (destruct style; [contradiction | reflexivity]).
    rewrite Hquoted. find_part.
  - reflexivity.
Qed.

End Pipeline.

(* ================================================================== *)
(** ** The further properties on concrete data *)

Lemma operations_without_credential_witness :
  Service.hasCredential unconfigured = false
  /\ Service.getTrendingTopics (imports := sampleImports)
       unconfigured ["Mystery"] Service.quiet
     = (Thrown (Error "API_KEY environment variable is not set."),
        Service.quiet).
Proof.
  split; [reflexivity |].
  exact (proj1 (proj2
    (operations_without_credential (imports := sampleImports)
       unconfigured Service.quiet "script" "15" None ["Mystery"] "[]"
       sampleIdea "You are a scriptwriter." (fun _ _ => sampleChat)
       sampleBackend "Noir" "Calm" 3 eq_refl))).
Defined.

Lemma operations_send_one_request_witness :
  Service.hasCredential (answering "key" "ten ideas") = true
  /\ Service.network
       (snd (Service.generateShortsIdeas (imports := sampleImports)
               (answering "key" "ten ideas") "Mystery" "30 seconds"
               Service.quiet))
     = [Service.ideasRequest (imports := sampleImports)
          "Mystery" "30 seconds"].
Proof.
  split; [reflexivity |].
  exact (proj1
    (operations_send_one_request (imports := sampleImports)
       (answering "key" "ten ideas") Service.quiet "Mystery" "30 seconds"
       "script" "15" None ["Mystery"] "[]" sampleIdea eq_refl)).
Defined.

Lemma operations_replace_endpoint_error_witness :
  Service.hasCredential (failing "key" TypeError) = true
  /\ fst (Service.getTrendingTopics (imports := sampleImports)
            (failing "key" TypeError) ["Mystery"] Service.quiet)
     = Thrown (Error "Failed to get trending topics from Gemini API.").
Proof.
  split; [reflexivity |].
  exact (f_equal fst (proj1 (proj2 (proj2
    (operations_replace_endpoint_error (imports := sampleImports)
       (failing "key" TypeError) Service.quiet TypeError
       "Mystery" "30 seconds" "script" "15" None ["Mystery"] "[]" sampleIdea
       eq_refl (fun _ => eq_refl)))))).
Defined.

Lemma operations_hand_through_witness :
  Service.hasCredential (answering "key" " [1, 2] ") = true
  /\ fst (Service.generateSeoContent (imports := sampleImports)
            (answering "key" " [1, 2] ") "[]" sampleIdea Service.quiet)
     = Returned (Json.Array [Json.Number "1"; Json.Number "2"]).
Proof.
  split; [reflexivity |].
  exact (proj2
    (operations_hand_through (imports := sampleImports)
       (answering "key" " [1, 2] ") Service.quiet "Mystery" "30 seconds"
       "[]" sampleIdea " [1, 2] " eq_refl (fun _ => eq_refl))
    (Json.Array [Json.Number "1"; Json.Number "2"]) eq_refl).
Defined.

Lemma stripJsonFences_fenced_witness :
  let text := " ```json" ++ Str.nl ++ "{}" ++ Str.nl ++ "```" ++ Str.nl in
  Str.trim text = "```json" ++ (Str.nl ++ "{}" ++ Str.nl) ++ "```"
  /\ Service.stripJsonFences text = "{}".
Proof.
  intros text. split; [reflexivity |].
  exact (proj1 (stripJsonFences_fenced text (Str.nl ++ "{}" ++ Str.nl))
           eq_refl).
Defined.

Lemma finalizeScriptAsJson_result_witness :
  let text := "```json [1] ```" in
  Service.hasCredential (answering "key" text) = true
  /\ Str.noOuterWhiteSpace "[1]" = true
  /\ exists before after, text = before ++ "[1]" ++ after.
Proof.
  intros text. split; [reflexivity |].
  exact (finalizeScriptAsJson_result (imports := sampleImports)
           (answering "key" text) "script" "15" None Service.quiet
           text "[1]" eq_refl eq_refl eq_refl).
Defined.

Lemma getTrendingTopics_topics_witness :
  let text := "Cats, Dogs ,  Birds" in
  Service.hasCredential (answering "key" text) = true
  /\ Str.trim text <> EmptyString
  /\ Str.includes "dogs" "," = false.
Proof.
  intros text. split; [reflexivity |].
  assert (Hblank : Str.trim text <> EmptyString) by discriminate.
  split; [exact Hblank |].
  exact (proj2 (proj2
    (proj2 (getTrendingTopics_topics (imports := sampleImports)
              (answering "key" text) ["Mystery"] Service.quiet text
              ["cats"; "dogs"; "birds"] eq_refl eq_refl Hblank eq_refl)
       "dogs" (or_intror (or_introl eq_refl))))).
Defined.

Lemma generateVideoForIdea_completes_witness :
  let waiting := {| Video.done := false; Video.uri := None |} in
  Video.generateVideoForIdea (imports := sampleImports)
    (answering "key" "unused") sampleBackend sampleIdea "Noir" "Calm" 3
  = Some (Returned "blob:bytes",
          (Video.Submitted
             (Video.videoRequest (imports := sampleImports)
                sampleIdea "Noir" "Calm")
             :: Video.rounds 3
             ++ [Video.Fetched
                   "https://videos.example/v1?alt=media&key=key"])%list).
Proof.
  intros waiting.
  refine (generateVideoForIdea_completes (imports := sampleImports)
            (answering "key" "unused") sampleBackend sampleIdea "Noir" "Calm"
            [waiting; waiting; waiting]
            {| Video.done := true;
               Video.uri := Some "https://videos.example/v1?alt=media" |}
            3 "key" "https://videos.example/v1?alt=media" "bytes"
            {| Video.ok := true; Video.statusText := "OK";
               Video.blob := Video.Answered "bytes" |}
            eq_refl eq_refl eq_refl _ eq_refl _ eq_refl eq_refl eq_refl
            eq_refl eq_refl (le_n 3)).
  - intros o [<- | [<- | [<- | []]]]; reflexivity.
  - intros [|[|[|j]]] o H; simpl in H.
    + now injection H as <-.
    + now injection H as <-.
    + now injection H as <-.
    + destruct j; discriminate H.
Defined.

Lemma generateVideoForIdea_waits_witness :
  Service.hasCredential (answering "key" "unused") = true
  /\ Video.generateVideoForIdea (imports := sampleImports)
       (answering "key" "unused") stuckBackend sampleIdea "Noir" "Calm" 1000
     = None.
Proof.
  split; [reflexivity |].
  refine (generateVideoForIdea_waits (imports := sampleImports)
            (answering "key" "unused") stuckBackend sampleIdea "Noir" "Calm"
            {| Video.done := false; Video.uri := None |}
            eq_refl eq_refl eq_refl _ 1000).
  intros j. eexists. split; reflexivity.
Defined.

Lemma generateVideoForIdea_download_errors_witness :
  Service.hasCredential (answering "key" "unused") = true
  /\ Video.generateVideoForIdea (imports := sampleImports)
       (answering "key" "unused") linklessBackend sampleIdea "Noir" "Calm" 0
     = Some
         (Thrown
            (Error "Video generation succeeded but no download link was found."),
          [Video.Submitted
             (Video.videoRequest (imports := sampleImports)
                sampleIdea "Noir" "Calm");
           Video.Logged "Error calling Veo API for video generation:"
             (Video.WithError
                "Video generation succeeded but no download link was found.")]).
Proof.
  split; [reflexivity |].
  refine (proj1
    (generateVideoForIdea_download_errors (imports := sampleImports)
       (answering "key" "unused") linklessBackend sampleIdea "Noir" "Calm"
       [] {| Video.done := true; Video.uri := None |} 0
       eq_refl eq_refl _ eq_refl _ (le_n 0))
    (or_introl eq_refl)).
  - intros o [].
  - intros [|j] o H; discriminate H.
Defined.

Lemma generateVideoForIdea_rejected_witness :
  Service.hasCredential (answering "key" "unused") = true
  /\ Video.generateVideoForIdea (imports := sampleImports)
       (answering "key" "unused") rejectingBackend sampleIdea "Noir" "Calm" 5
     = Some
         (Thrown (Error "quota exceeded"),
          [Video.Submitted
             (Video.videoRequest (imports := sampleImports)
                sampleIdea "Noir" "Calm");
           Video.Logged "Error calling Veo API for video generation:"
             (Video.WithError "quota exceeded")]).
Proof.
  split; [reflexivity |].
  exact (proj1
    (generateVideoForIdea_rejected (imports := sampleImports)
       (answering "key" "unused") rejectingBackend sampleIdea "Noir" "Calm"
       (Video.WithError "quota exceeded")
       {| Video.done := false; Video.uri := None |} [] 5 eq_refl)
    eq_refl).
Defined.

Lemma splitDraft_plain_witness :
  Str.includes tableText ScriptGeneratorModal.separator = false
  /\ ScriptGeneratorModal.scriptTable (Some tableText) = Some tableText.
Proof.
  split; [reflexivity |].
  assert (Hne : tableText <> EmptyString) by discriminate.
  exact (proj2 (proj2 (splitDraft_plain tableText Hne (or_introl eq_refl)))).
Defined.

Lemma splitDraft_parts_witness :
  ScriptGeneratorModal.splitDraft (Some headedDraft)
  = (Some ("### Suggested Narration Styles" ++ Str.nl ++ calmLine),
     Some tableText)
  /\ exists rest,
       headedDraft
       = ("### Suggested Narration Styles" ++ Str.nl ++ calmLine)
           ++ ScriptGeneratorModal.separator ++ rest
       /\ tableText = Str.trim rest.
Proof.
  split; [reflexivity |].
  exact (proj2 (splitDraft_parts headedDraft
                  ("### Suggested Narration Styles" ++ Str.nl ++ calmLine)
                  tableText eq_refl)).
Defined.

Lemma parsedSuggestions_fields_witness :
  In calm
    (ScriptGeneratorModal.parsedSuggestions
       (ScriptGeneratorModal.narrationSuggestions (Some headedDraft)))
  /\ ScriptGeneratorModal.name calm <> EmptyString.
Proof.
  assert (Hin : In calm
                  (ScriptGeneratorModal.parsedSuggestions
                     (ScriptGeneratorModal.narrationSuggestions
                        (Some headedDraft)))).
  { assert (E : ScriptGeneratorModal.parsedSuggestions
                  (ScriptGeneratorModal.narrationSuggestions
                     (Some headedDraft)) = [calm])
      by (vm_compute; reflexivity).
    rewrite E. left. reflexivity. }
  split; [exact Hin |].
  exact (proj1 (parsedSuggestions_fields _ calm Hin)).
Defined.

Lemma renderScriptTable_shape_witness :
  ScriptGeneratorModal.renderScriptTable tableText
  = Returned
      (ScriptGeneratorModal.Table ["Timestamp"; "Action"]
         [[["0:00"]; ["Open"]]])
  /\ 2 <= List.length [["0:00"]; ["Open"]].
Proof.
  split; [reflexivity |].
  exact (proj1
    (proj2 (renderScriptTable_shape tableText ["Timestamp"; "Action"]
              [[["0:00"]; ["Open"]]] eq_refl)
       [["0:00"]; ["Open"]] (or_introl eq_refl))).
Defined.

Lemma finalized_script_in_the_modals_witness :
  let text := "```json" ++ Str.nl ++ "Sorry, I cannot." ++ Str.nl ++ "```" in
  Service.hasCredential (answering "key" text) = true
  /\ fst (Service.finalizeScriptAsJson (imports := sampleImports)
            (answering "key" text) "script" "15" None Service.quiet)
     = Returned "Sorry, I cannot."
  /\ HistoryDetailModal.render (imports := sampleImports)
       (Some {| HistoryDetailModal.idea := sampleIdea;
                HistoryDetailModal.jsonScript := "Sorry, I cannot.";
                HistoryDetailModal.seoContent :=
                  {| HistoryDetailModal.title := "t";
                     HistoryDetailModal.description := "d";
                     HistoryDetailModal.tags := [] |} |})
     = Thrown SyntaxError.
Proof.
  intros text. split; [reflexivity |].
  pose proof (finalized_script_in_the_modals (imports := sampleImports)
                (answering "key" text) "script" "15" None Service.quiet text
                sampleIdea
                {| HistoryDetailModal.title := "t";
                   HistoryDetailModal.description := "d";
                   HistoryDetailModal.tags := [] |}
                eq_refl eq_refl) as (Hrun & Hbad & _).
  split; [exact Hrun |].
  exact (proj2 (Hbad SyntaxError eq_refl)).
Defined.

Lemma script_streams_witness :
  fst (ScriptChat.regenerateScriptStream sampleChat "30 seconds" false
         "English" "More drama" None Service.quiet)
  = Thrown (Error "Failed to regenerate script from Gemini API.").
Proof.
  exact (f_equal fst
    (proj2 (proj2 (proj2
       (script_streams (imports := sampleImports) sampleChat sampleIdea
          "30 seconds" false "English" "More drama" None Service.quiet)))
       TypeError eq_refl)).
Defined.

Lemma script_messages_witness :
  Str.includes
    (ScriptChat.regeneratePrompt "30 seconds" false "English" "More drama"
       (Some "Calm"))
    (Str.dq ++ "Calm" ++ Str.dq)
  = true.
Proof.
  assert (Hstyle : "Calm" <> EmptyString) by discriminate.
  exact (proj1 (proj2 (proj2
    (script_messages (imports := sampleImports) sampleIdea "30 seconds"
       false "English" "More drama" "Calm" None))) Hstyle).
Defined.

Lemma stripJsonFences_again_witness :
  let text := " ```json [1] ``` " in
  Str.endsWith (Service.stripJsonFences text) "```" = false
  /\ Service.stripJsonFences (Service.stripJsonFences text) = "[1]".
Proof.
  intros text. split; [reflexivity |].
  exact (stripJsonFences_again text eq_refl eq_refl).
Defined.

Lemma renderScriptTable_block_witness :
  let body := "| 0:00 | Open |" ++ Str.nl ++ "note" ++ Str.nl
                ++ "0:05 | Close" ++ Str.nl in
  Str.trimEnd body <> EmptyString
  /\ ScriptGeneratorModal.renderScriptTable
       ("| Timestamp | Action |" ++ Str.nl ++ "| 0:00 | Lost |" ++ Str.nl
          ++ body)
     = Returned
         (ScriptGeneratorModal.Table ["Timestamp"; "Action"]
            [[["0:00"]; ["Open"]]; [["0:05"]; ["Close"]]]).
Proof.
  intros body.
  assert (Hbody : Str.trimEnd body <> EmptyString) by discriminate.
  split; [exact Hbody |].
  exact (renderScriptTable_block "| Timestamp | Action |" "| 0:00 | Lost |"
           body eq_refl eq_refl eq_refl eq_refl Hbody).
Defined.
